(** * trpc: a fault-injecting, in-process substitute for net/rpc

    Shallow embedding of the simulated RPC fabric (service registry,
    Server, Client, Network) and the properties checked against it.

    Conventions of the embedding:
    - Go maps are [gmap]s; a lookup of an absent key is [None] where the
      code uses the comma-ok form, and the zero value where it does not.
    - A Go [error] is an [option string]: [None] is [nil], [Some msg] an
      error with that message.  A [(T, error)] result is a [res T].
    - Mutexes are not modelled: every operation runs atomically, one at
      a time.
    - [rand.Int], [time.Sleep], reflective calls and panics are effects
      of the monad [M]: random draws come from an oracle stream, sleeps
      and method invocations are appended to a trace.
    - [int] has 64 bits.  math/rand is embedded as far as the fabric
      uses it: Int, and Intn with its rejection loop, which is followed
      for as many redraws as the environment grants.
    - Of the two versions of Network in the sources, the one with the
      fault-injection state (enabled, reliable, longDelay, longReorder)
      is the one embedded. *)

From stdpp Require Import gmap strings list fin_maps pretty.
From Stdlib Require Import ZArith Ascii.

Open Scope string_scope.

(** ** Go values, errors and results *)

(** Dynamically typed values passed as [interface{}]. *)
Inductive value :=
| VNil
| VInt (z : Z)
| VStr (s : string)
| VErr (msg : string)
| VPair (a b : value)
| VPtr (l : nat).

Definition error := option string.
Definition nil : error := None.

Inductive res (A : Type) :=
| Ok (a : A)
| Fail (msg : string).
Arguments Ok {A} a.
Arguments Fail {A} msg.

Definition is_Fail {A} (r : res A) : bool :=
  match r with Fail _ => true | Ok _ => false end.

(** ** The effect monad *)

Inductive event :=
| ESleep (ms : Z)                          (* time.Sleep(ms * time.Millisecond) *)
| ECall (method : string) (ins : list value). (* reflect.Value.Call *)

Record Env := {
  rng : nat → N;          (* the values the random source will yield, in order *)
  cursor : nat;           (* how many of them were consumed *)
  trace : list event;     (* sleeps and method invocations so far *)
  mem : gmap nat value;   (* memory reachable through VPtr *)
  patience : nat          (* how many redraws a rejection loop is followed for *)
}.

(** [Hang]: a loop was not seen to end within the patience granted. *)
Inductive outcome (A : Type) :=
| Ret (a : A)
| Panic (msg : string)
| Hang.
Arguments Ret {A} a.
Arguments Panic {A} msg.
Arguments Hang {A}.

Definition M (A : Type) : Type := Env → outcome A * Env.

Definition ret {A} (a : A) : M A := λ env, (Ret a, env).

Definition bind {A B} (c : M A) (f : A → M B) : M B := λ env,
  match c env with
  | (Ret a, env') => f a env'
  | (Panic msg, env') => (Panic msg, env')
  | (Hang, env') => (Hang, env')
  end.

Notation "'let*' x := c 'in' k" := (bind c (λ x, k))
  (at level 10, x name, c at level 200, k at level 200).

Definition panic {A} (msg : string) : M A := λ env, (Panic msg, env).

Definition hang {A} : M A := λ env, (Hang, env).

(** The three ways an effect changes the environment.  [next_draw] is
    Source.Int63(): the next value of the source, 63 bits of it. *)
Definition next_draw (env : Env) : Z := (Z.of_N (rng env (cursor env)) mod 2 ^ 63)%Z.

Definition advance (env : Env) : Env :=
  {| rng := rng env; cursor := S (cursor env); trace := trace env; mem := mem env;
     patience := patience env |}.

Definition log (e : event) (env : Env) : Env :=
  {| rng := rng env; cursor := cursor env; trace := trace env ++ [e]; mem := mem env;
     patience := patience env |}.

Definition with_mem (env : Env) (m : gmap nat value) : Env :=
  {| rng := rng env; cursor := cursor env; trace := trace env; mem := m;
     patience := patience env |}.

Definition emit (e : event) : M unit := λ env, (Ret (), log e env).

(** rand.Int(): a non-negative pseudo-random int,
    int(uint(r.Int63()) << 1 >> 1): with 64 bits the 63-bit value itself. *)
Definition rand_Int : M Z := λ env, (Ret (next_draw env), advance env).

(** rand.Int63() and rand.Int31() = int32(r.Int63() >> 32) *)
Definition rand_Int63 : M Z := λ env, (Ret (next_draw env), advance env).

Definition rand_Int31 : M Z := λ env, (Ret (Z.shiftr (next_draw env) 32), advance env).

(** for v > max { v = draw() }, followed for [budget] redraws. *)
Fixpoint redraw (budget : nat) (draw : M Z) (max v : Z) : M Z :=
  if (v >? max)%Z then
    match budget with
    | 0 => hang
    | S budget' => let* v' := draw in redraw budget' draw max v'
    end
  else ret v.

(** rand.Int31n(n) and rand.Int63n(n): a power of two masks the draw;
    otherwise draws above the largest multiple of n are rejected. *)
Definition rand_Int31n (n : Z) : M Z :=
  if (n <=? 0)%Z then panic "invalid argument to Int31n"
  else if (Z.land n (n - 1) =? 0)%Z then
    let* v := rand_Int31 in ret (Z.land v (n - 1))
  else
    let max := (2 ^ 31 - 1 - 2 ^ 31 mod n)%Z in
    let* v := rand_Int31 in
    let* v := (λ env, redraw (patience env) rand_Int31 max v env) in
    ret (Z.rem v n).

Definition rand_Int63n (n : Z) : M Z :=
  if (n <=? 0)%Z then panic "invalid argument to Int63n"
  else if (Z.land n (n - 1) =? 0)%Z then
    let* v := rand_Int63 in ret (Z.land v (n - 1))
  else
    let max := (2 ^ 63 - 1 - 2 ^ 63 mod n)%Z in
    let* v := rand_Int63 in
    let* v := (λ env, redraw (patience env) rand_Int63 max v env) in
    ret (Z.rem v n).

(** rand.Intn(n): a value in [0,n); panics if n <= 0. *)
Definition rand_Intn (n : Z) : M Z :=
  if (n <=? 0)%Z then panic "invalid argument to Intn"
  else if (n <=? 2 ^ 31 - 1)%Z then rand_Int31n n
  else rand_Int63n n.

(** time.Sleep(time.Duration(ms) * time.Millisecond) *)
Definition time_Sleep (ms : Z) : M unit := emit (ESleep ms).

(** ** fmt and strings *)

(** fmt.Sprintf("%s-%d", prefix, index) *)
Definition generateName (prefix : string) (index : Z) : string :=
  prefix +:+ "-" +:+ pretty index.

(** fmt.Sprintf("%s-%s", network, address) *)
Definition joinAddress (network address : string) : string :=
  network +:+ "-" +:+ address.

(** strings.Split(s, sep) for a one-byte separator: the substrings
    between the separators, one more than there are separators. *)
Fixpoint strings_Split (s : string) (sep : ascii) : list string :=
  match s with
  | EmptyString => [""]
  | String c s' =>
      if Ascii.eqb c sep then "" :: strings_Split s' sep
      else match strings_Split s' sep with
           | [] => [String c ""]
           | h :: t => String c h :: t
           end
  end.

Definition parseServiceMethod (serviceMethod : string) : res (string * string) :=
  let tags := strings_Split serviceMethod "."%char in
  match tags with
  | [t0; t1] => Ok (t0, t1)
  | _ => Fail ("rpc: invalid service methods: " +:+ serviceMethod)
  end.

(** ** reflect *)

Inductive Kind := Ptr | Struct | Int | String_ | Interface | Func_.

Global Instance Kind_eq_dec : EqDecision Kind.
Proof. solve_decision. Defined.

(** The type of a method as reflect reports it: the receiver is the
    first input. *)
Record FuncType := {
  ins_kinds : list Kind;
  outs_kinds : list Kind
}.

Definition NumIn (typ : FuncType) : nat := length (ins_kinds typ).
Definition NumOut (typ : FuncType) : nat := length (outs_kinds typ).

(** A callable: from the inputs and the memory to the new memory and the
    returned values; [None] when the call panics. *)
Definition callable := list value → gmap nat value → option (gmap nat value * list value).

(** reflect.Method.  [Func = None] is the zero reflect.Value. *)
Record Method := {
  Name : string;
  PkgPath : string;
  Type_ : FuncType;
  Func : option callable
}.

(** reflect.Method{} : the zero value a freshly made slice is filled with. *)
Definition zeroMethod : Method :=
  {| Name := ""; PkgPath := ""; Type_ := {| ins_kinds := []; outs_kinds := [] |};
     Func := None |}.

(** Running the function behind a reflect.Value on the memory. *)
Definition invoke (f : callable) (ins : list value) : M (list value) := λ env,
  match f ins (mem env) with
  | None => (Panic "panic in method call", env)
  | Some (mem', outs) => (Ret outs, with_mem env mem')
  end.

(** m.Func.Call(ins) *)
Definition Method_Call (m : Method) (ins : list value) : M (list value) :=
  match Func m with
  | None => panic "reflect: call of reflect.Value.Call on zero Value"
  | Some f => let* _ := emit (ECall (Name m) ins) in invoke f ins
  end.

(** What reflect tells about a value passed as [rcvr interface{}]. *)
Record Receiver := {
  typ_Name : string;          (* reflect.TypeOf(rcvr).Name() *)
  indirect_Name : string;     (* reflect.Indirect(reflect.ValueOf(rcvr)).Type().Name() *)
  typ_Methods : list Method;  (* reflect.TypeOf(rcvr).Method(i), i < NumMethod() *)
  rcvr_Value : value          (* reflect.ValueOf(rcvr) *)
}.

Definition validMethodType (typ : FuncType) : bool :=
  if negb (NumIn typ =? 3)%nat || negb (NumOut typ =? 0)%nat then false
  else
    (* All input args should be pointer. *)
    forallb (λ i, bool_decide (ins_kinds typ !! i = Some Ptr)) (seq 1 (NumIn typ - 1)).

(** ** service *)

Record service := {
  service_name : string;             (* name of service *)
  service_typ : string;              (* type of the receiver: its Name() *)
  service_receiver : value;          (* receiver of methods for the service *)
  service_methods : gmap string Method (* registered methods *)
}.

Module service.

Definition getMethod (s : service) (name : string) : res Method :=
  match service_methods s !! name with
  | None => Fail ("rpc: Can't find method " +:+ name +:+ " of service " +:+ service_name s)
  | Some m => Ok m
  end.

Definition dispatch (s : service) (method : string) (args reply : value) : M error :=
  match getMethod s method with
  | Fail err => ret (Some err)
  | Ok m =>
      let* _ := Method_Call m [service_receiver s; args; reply] in
      ret nil
  end.

Definition addMethods (s : service) (methods : list Method) : service :=
  {| service_name := service_name s;
     service_typ := service_typ s;
     service_receiver := service_receiver s;
     service_methods := foldl (λ tbl m, <[Name m := m]> tbl) (service_methods s) methods |}.

End service.

(** ** Server *)

Record Server := {
Server_name : string;               (* Unique name to identify this server. *)
Server_services : gmap string service (* Services register in this server. *)
}.

Definition newServer (name : string) : Server :=
{| Server_name := name; Server_services := ∅ |}.

Module Server.

Definition addService (server : Server) (name : string) (s : service) : Server * error :=
  match Server_services server !! name with
  | Some _ => (server, Some ("rpc: service already defined: " +:+ name))
  | None =>
      ({| Server_name := Server_name server;
          Server_services := <[name := s]> (Server_services server) |}, nil)
  end.

(** The slice [methods] after the registration loop. *)
Definition selectMethods (typ_methods : list Method) : list Method :=
  foldl (λ methods i,
           match typ_methods !! i with
           | Some method =>
               (* The methods should be exported and has valid signature. *)
               if bool_decide (PkgPath method = "") && validMethodType (Type_ method)
               then <[i := method]> methods
               else methods
           | None => methods
           end)
        (replicate (length typ_methods) zeroMethod)
        (seq 0 (length typ_methods)).

Definition RegisterName (server : Server) (name : string) (rcvr : Receiver)
  : Server * error :=
  let s := {| service_name := "";
              service_typ := typ_Name rcvr;
              service_receiver := rcvr_Value rcvr;
              service_methods := ∅ |} in
  let name := if (String.length name =? 0)%nat then indirect_Name rcvr else name in
  let methods := selectMethods (typ_Methods rcvr) in
  if (length methods =? 0)%nat then
    (server, Some ("rpc.Register: type " +:+ service_typ s +:+ " has no exported methods"))
  else
    let s := service.addMethods s methods in
    addService server name s.

Definition Register (server : Server) (rcvr : Receiver) : Server * error :=
  RegisterName server "" rcvr.

Definition getService (server : Server) (name : string) : res service :=
  match Server_services server !! name with
  | None => Fail ("rpc: service " +:+ name +:+ " undefined")
  | Some s => Ok s
  end.

Definition dispatch (server : Server) (service method : string) (args reply : value)
  : M error :=
  match getService server service with
  | Fail err => ret nil
  | Ok srv => service.dispatch srv method args reply
  end.

End Server.

(** ** Client *)

(** The handle holds its name; its two handlers are the fabric's [call]
    and [closeClient], so [Client.Call] and [Client.Close] below take the
    fabric they are bound to. *)
Record Client := {
  Client_name : string  (* Unique name to identify this client. *)
}.

Definition newClient (name : string) : Client := {| Client_name := name |}.

(** ** Network *)

Definition longTimeout : Z := 7000.
Definition shortTimeout : Z := 100.
Definition shortDelay : Z := 27.

Definition timeoutErr : error := Some "rpc: request timeout".

(** [servers] holds pointers: [objects] is the store of the Server
    objects the fabric allocated, addressed by allocation order. *)
Record Network := {
  objects : nat → Server;
  allocated : nat;
  servers : gmap string nat;
  clients : gmap string Client;
  addressMap : gmap string string;  (* Map network address to server name. *)
  connections : gmap string string; (* Map client name to server name it connected to. *)
  reliable : bool;
  longDelay : bool;
  longReorder : bool;
  enabled : gmap string bool
}.

Definition NewNetwork : Network :=
  {| objects := λ _, newServer ""; allocated := 0;
     servers := ∅; clients := ∅; addressMap := ∅; connections := ∅;
     reliable := true; longDelay := false; longReorder := false;
     enabled := ∅ |}.

Definition with_servers (n : Network) (m : gmap string nat) : Network :=
  {| objects := objects n; allocated := allocated n; servers := m;
     clients := clients n; addressMap := addressMap n;
     connections := connections n; reliable := reliable n;
     longDelay := longDelay n; longReorder := longReorder n;
     enabled := enabled n |}.

Definition with_object (n : Network) (l : nat) (s : Server) : Network :=
  {| objects := λ l', if (l' =? l)%nat then s else objects n l';
     allocated := Nat.max (allocated n) (S l); servers := servers n;
     clients := clients n; addressMap := addressMap n;
     connections := connections n; reliable := reliable n;
     longDelay := longDelay n; longReorder := longReorder n;
     enabled := enabled n |}.

Definition with_clients (n : Network) (m : gmap string Client) : Network :=
  {| objects := objects n; allocated := allocated n; servers := servers n;
     clients := m; addressMap := addressMap n;
     connections := connections n; reliable := reliable n;
     longDelay := longDelay n; longReorder := longReorder n;
     enabled := enabled n |}.

Definition with_addressMap (n : Network) (m : gmap string string) : Network :=
  {| objects := objects n; allocated := allocated n; servers := servers n;
     clients := clients n; addressMap := m;
     connections := connections n; reliable := reliable n;
     longDelay := longDelay n; longReorder := longReorder n;
     enabled := enabled n |}.

Definition with_connections (n : Network) (m : gmap string string) : Network :=
  {| objects := objects n; allocated := allocated n; servers := servers n;
     clients := clients n; addressMap := addressMap n;
     connections := m; reliable := reliable n;
     longDelay := longDelay n; longReorder := longReorder n;
     enabled := enabled n |}.

Definition with_enabled (n : Network) (m : gmap string bool) : Network :=
  {| objects := objects n; allocated := allocated n; servers := servers n;
     clients := clients n; addressMap := addressMap n;
     connections := connections n; reliable := reliable n;
     longDelay := longDelay n; longReorder := longReorder n;
     enabled := m |}.

Definition with_flags (n : Network) (r ld lr : bool) : Network :=
  {| objects := objects n; allocated := allocated n; servers := servers n;
     clients := clients n; addressMap := addressMap n;
     connections := connections n; reliable := r;
     longDelay := ld; longReorder := lr;
     enabled := enabled n |}.

Module Network.

(** SetReliable marks Network as reliable or not reliable. *)
Definition SetReliable (n : Network) (reliable : bool) : Network :=
  with_flags n reliable (longDelay n) (longReorder n).

Definition setClientEnable (n : Network) (name : string) (enabled_ : bool) : Network :=
  match clients n !! name with
  | None => n (* Do nothing if client not exist. *)
  | Some _ => with_enabled n (<[name := enabled_]> (enabled n))
  end.

Definition EnableClient (n : Network) (name : string) : Network :=
  setClientEnable n name true.

Definition DisableClient (n : Network) (name : string) : Network :=
  setClientEnable n name false.

(** NewServer creates a Server with generated name; the result is the
    pointer to it. *)
Definition NewServer (n : Network) : Network * nat :=
  let name := generateName "server" (Z.of_nat (size (servers n))) in
  let server := allocated n in
  let n := with_object n server (newServer name) in
  (with_servers n (<[name := server]> (servers n)), server).

Definition RemoveServer (n : Network) (server : nat) : Network :=
  with_servers n (delete (Server_name (objects n server)) (servers n)).

(** Bind the network address to a server. If the address is already
    occupied, do nothing. *)
Definition registerServer (n : Network) (name network address : string) : Network :=
  let key := joinAddress network address in
  match addressMap n !! key with
  | Some _ => n
  | None => with_addressMap n (<[key := name]> (addressMap n))
  end.

Definition getServerByAddress (n : Network) (network address : string) : res nat :=
  let no_server :=
    Fail ("rpc: no server listens on " +:+ network +:+ "/" +:+ address) in
  match addressMap n !! joinAddress network address with
  | Some name =>
      match servers n !! name with
      | Some server => Ok server
      | None => no_server
      end
  | None => no_server
  end.

Definition createClient (n : Network) (server : nat) : Network * Client :=
  let name := generateName "client" (Z.of_nat (size (clients n))) in
  let client := newClient name in
  let n := with_clients n (<[name := client]> (clients n)) in
  (* Enable the client by default. *)
  let n := with_enabled n (<[name := true]> (enabled n)) in
  let n := with_connections n
             (<[name := Server_name (objects n server)]> (connections n)) in
  (n, client).

(** Dail creates a new Client connects to the specified network address. *)
Definition Dail (n : Network) (network address : string) : Network * res Client :=
  match getServerByAddress n network address with
  | Fail err => (n, Fail err)
  | Ok server => let '(n', c) := createClient n server in (n', Ok c)
  end.

Definition closeClient (n : Network) (name : string) : Network * error :=
  match clients n !! name with
  | Some _ => (n, Some "rpc: client not exist")
  | None =>
      let n := with_enabled n (delete name (enabled n)) in
      let n := with_clients n (delete name (clients n)) in
      (n, nil)
  end.

Definition networkCondition (n : Network) (clientName : string)
  : bool * bool * bool * bool :=
  (default false (enabled n !! clientName), reliable n, longDelay n, longReorder n).

Definition getServer (n : Network) (name : string) : res nat :=
  match servers n !! name with
  | None => Fail "rpc: server missed"
  | Some server => Ok server
  end.

(** The probability of request lost is 1/10. *)
Definition msgLost_of (r : Z) : bool := (Z.rem r 1000 <? 100)%Z.

Definition msgLost : M bool :=
  let* r := rand_Int in ret (msgLost_of r).

Definition responseDelay : M Z :=
  let* k := rand_Intn 2000 in
  let* d := rand_Intn (1 + k) in
  ret (200 + d)%Z.

Definition dispatch (n : Network) (serverName clientName : string)
    (service method : string) (args reply : value) : M error :=
  let server := getServer n serverName in
  let '(enabled_, reliable_, longDelay_, longRecorder) := networkCondition n clientName in
  if negb enabled_ || is_Fail server then
    (* Client is disabled or server is removed, treated as no reply and
       eventual timeout. *)
    let* timeout := (if longDelay_ then let* r := rand_Int in ret (Z.rem r longTimeout)
                     else let* r := rand_Int in ret (Z.rem r shortTimeout)) in
    let* _ := time_Sleep timeout in
    ret timeoutErr
  else
    let* lost := (if negb reliable_ then msgLost else ret false) in
    if lost then
      (* Drop the request and return as timeout. *)
      ret timeoutErr
    else
      (* Simulate a short delay *)
      let* _ := (if negb reliable_ then let* r := rand_Int in time_Sleep (Z.rem r shortDelay)
                 else ret ()) in
      let* err := match server with
                  | Ok server => Server.dispatch (objects n server) service method args reply
                  | Fail _ => panic "invalid memory address or nil pointer dereference"
                  end in
      let* lost := (if negb reliable_ then msgLost else ret false) in
      if lost then
        (* Drop the response and return as timeout. *)
        ret timeoutErr
      else
        let* _ := (if longRecorder then let* d := responseDelay in time_Sleep d else ret ()) in
        ret err.

Definition call (n : Network) (clientName serviceMethod : string) (args reply : value)
  : M error :=
  match parseServiceMethod serviceMethod with
  | Fail err => ret (Some err)
  | Ok (service, method) =>
      match connections n !! clientName with
      | None =>
          (* This is odd. *)
          ret (Some "rpc: client doesn't connect to any server")
      | Some serverName => dispatch n serverName clientName service method args reply
      end
  end.

End Network.

Module Client.

Definition Call (n : Network) (c : Client) (serviceMethod : string) (args reply : value)
  : M error :=
  Network.call n (Client_name c) serviceMethod args reply.

Definition Close (n : Network) (c : Client) : Network * error :=
  Network.closeClient n (Client_name c).

End Client.

(** Operations on a Server reached through its pointer. *)

(** server.Accept(listener): the registrar is the fabric's registerServer. *)
Definition Server_Accept (n : Network) (server : nat) (network address : string) : Network :=
  Network.registerServer n (Server_name (objects n server)) network address.

(** server.RegisterName(name, rcvr) on the object behind the pointer. *)
Definition Server_RegisterName (n : Network) (server : nat) (name : string)
    (rcvr : Receiver) : Network * error :=
  let '(s, err) := Server.RegisterName (objects n server) name rcvr in
  (with_object n server s, err).

(** ** Concrete receivers, environments and fabrics *)

(** Arith.Add(args *Args, reply *int): *reply = args.A + args.B *)
Definition Arith_Add : callable := λ ins m,
  match ins with
  | [_; VPtr a; VPtr r] =>
      match m !! a with
      | Some (VPair (VInt x) (VInt y)) => Some (<[r := VInt (x + y)]> m, [])
      | _ => None
      end
  | _ => None
  end.

Definition Add_method : Method :=
  {| Name := "Add"; PkgPath := "";
     Type_ := {| ins_kinds := [Ptr; Ptr; Ptr]; outs_kinds := [] |};
     Func := Some Arith_Add |}.

(** rcvr = &Arith{} : the pointer type has no name, its element has. *)
Definition Arith : Receiver :=
  {| typ_Name := ""; indirect_Name := "Arith";
     typ_Methods := [Add_method]; rcvr_Value := VPtr 0 |}.

(** Logger.Print(line string): exported, but one by-value parameter. *)
Definition Print_method : Method :=
  {| Name := "Print"; PkgPath := "";
     Type_ := {| ins_kinds := [Struct; String_]; outs_kinds := [] |};
     Func := Some (λ _ m, Some (m, [])) |}.

Definition Logger : Receiver :=
  {| typ_Name := "Logger"; indirect_Name := "Logger";
     typ_Methods := [Print_method]; rcvr_Value := VNil |}.

(** A method in the net/rpc style, returning an error. *)
Definition Fail_callable : callable := λ _ m, Some (m, [VErr "boom"]).

Definition Fail_method : Method :=
  {| Name := "Fail"; PkgPath := "";
     Type_ := {| ins_kinds := [Ptr; Ptr; Ptr]; outs_kinds := [Interface] |};
     Func := Some Fail_callable |}.

Definition failing_service : service :=
  service.addMethods
    {| service_name := "Flaky"; service_typ := ""; service_receiver := VPtr 0;
       service_methods := ∅ |}
    [Fail_method].

(** Memory with the arguments {2,3} at address 1 and a reply cell at 2;
    the oracle will answer 137, 348, 559, ... *)
Definition env0 : Env :=
  {| rng := λ i, N.of_nat (137 + 211 * i); cursor := 0; trace := [];
     mem := <[1 := VPair (VInt 2) (VInt 3)]> (<[2 := VInt 0]> ∅);
     patience := 3 |}.



(** One server with Arith registered, listening on ("test","addr1"),
    and one client dialled to it. *)
Definition net_server : Network := (Network.NewServer NewNetwork).1.
Definition net_arith : Network := (Server_RegisterName net_server 0 "" Arith).1.
Definition net_bound : Network := Server_Accept net_arith 0 "test" "addr1".
Definition net_dialled : Network := (Network.Dail net_bound "test" "addr1").1.
Definition client0 : Client := newClient "client-0".

(** Two servers, the first removed, then a third created. *)
Definition net_two : Network := (Network.NewServer net_arith).1.
Definition net_two_arith : Network := (Server_RegisterName net_two 1 "" Arith).1.
Definition net_removed : Network := Network.RemoveServer net_two_arith 0.
Definition net_third : Network := (Network.NewServer net_removed).1.

(** The service RegisterName builds for Arith. *)
Definition arith_service : service :=
  service.addMethods
    {| service_name := ""; service_typ := ""; service_receiver := VPtr 0;
       service_methods := ∅ |}
    (Server.selectMethods [Add_method]).



(** A run of registerServer calls, each (server name, network, address). *)
Definition registerAll (n : Network) (calls : list (string * string * string)) : Network :=
  foldl (λ n '(name, network, address), Network.registerServer n name network address)
        n calls.

(** How many times the separator occurs in a string. *)
Fixpoint count_sep (sep : ascii) (s : string) : nat :=
  match s with
  | EmptyString => 0
  | String c s' => (if Ascii.eqb c sep then 1 else 0) + count_sep sep s'
  end.



(** ** Runs of the fabric *)

(** What test code can do to a fabric: the exported operations, the
    three fault flags, and the operations of the servers and clients it
    was handed.  Servers are named by their pointer, clients by name. *)
Inductive op :=
| OpSetReliable (b : bool)
| OpSetLongDelay (b : bool)
| OpSetLongReorder (b : bool)
| OpEnableClient (name : string)
| OpDisableClient (name : string)
| OpNewServer
| OpRemoveServer (server : nat)
| OpAccept (server : nat) (network address : string)
| OpRegisterName (server : nat) (name : string) (rcvr : Receiver)
| OpDail (network address : string)
| OpClose (name : string).

Definition apply_op (n : Network) (o : op) : Network :=
  match o with
  | OpSetReliable b => Network.SetReliable n b
  | OpSetLongDelay b => with_flags n (reliable n) b (longReorder n)
  | OpSetLongReorder b => with_flags n (reliable n) (longDelay n) b
  | OpEnableClient name => Network.EnableClient n name
  | OpDisableClient name => Network.DisableClient n name
  | OpNewServer => (Network.NewServer n).1
  | OpRemoveServer server => Network.RemoveServer n server
  | OpAccept server network address => Server_Accept n server network address
  | OpRegisterName server name rcvr => (Server_RegisterName n server name rcvr).1
  | OpDail network address => (Network.Dail n network address).1
  | OpClose name => (Network.closeClient n name).1
  end.

Definition run (n : Network) (ops : list op) : Network := foldl apply_op n ops.

(** The keys of a directory are prefix-0 .. prefix-(size-1). *)
Definition dense {V} (prefix : string) (m : gmap string V) : Prop :=
  ∀ key, is_Some (m !! key)
         ↔ ∃ k : nat, k < size m ∧ key = generateName prefix (Z.of_nat k).

(** The client side of the directories is coherent. *)
Record clients_coherent (n : Network) : Prop := {
  coherent_dense : dense "client" (clients n);
  coherent_name : ∀ name c, clients n !! name = Some c → Client_name c = name;
  coherent_enabled : ∀ name, is_Some (enabled n !! name) ↔ is_Some (clients n !! name);
  coherent_connections :
    ∀ name, is_Some (connections n !! name) ↔ is_Some (clients n !! name)
}.

(** Every directory entry points to an allocated server of that name. *)
Definition servers_named (n : Network) : Prop :=
  ∀ name server, servers n !! name = Some server →
                 Server_name (objects n server) = name ∧ server < allocated n.

Definition is_call (e : event) : bool :=
  match e with ECall _ _ => true | ESleep _ => false end.

(** What a computation left in the environment: [draws] values consumed,
    [evs] appended to the trace, the memory as it was unless a method
    ran, the oracle and the patience as they were. *)
Definition effects (env env' : Env) (evs : list event) (draws : nat) : Prop :=
  rng env' = rng env
  ∧ patience env' = patience env
  ∧ cursor env' = cursor env + draws
  ∧ trace env' = (trace env ++ evs)%list
  ∧ (List.filter is_call evs = [] → mem env' = mem env).

(** ** The fabric without fault injection

    The other version of Network in the sources: the same directories,
    no flags and no enabled map; a call to a missing server is an error
    of its own. *)
Record BasicNetwork := {
  basic_objects : nat → Server;
  basic_servers : gmap string nat;
  basic_clients : gmap string Client;
  basic_addressMap : gmap string string;
  basic_connections : gmap string string
}.

Module BasicNetwork.

Definition getServer (n : BasicNetwork) (name : string) : res nat :=
  match basic_servers n !! name with
  | None => Fail "rpc: server missed"
  | Some server => Ok server
  end.

Definition dispatch (n : BasicNetwork) (serverName clientName : string)
    (service method : string) (args reply : value) : M error :=
  match getServer n serverName with
  | Fail err => ret (Some err)
  | Ok server => Server.dispatch (basic_objects n server) service method args reply
  end.

Definition call (n : BasicNetwork) (clientName serviceMethod : string)
    (args reply : value) : M error :=
  match parseServiceMethod serviceMethod with
  | Fail err => ret (Some err)
  | Ok (service, method) =>
      match basic_connections n !! clientName with
      | None =>
          (* This is odd. *)
          ret (Some "rpc: client doesn't connect to any server")
      | Some serverName => dispatch n serverName clientName service method args reply
      end
  end.

End BasicNetwork.

(** The directories of a fault-injecting fabric, seen as a basic one. *)
Definition forget (n : Network) : BasicNetwork :=
  {| basic_objects := objects n; basic_servers := servers n;
     basic_clients := clients n; basic_addressMap := addressMap n;
     basic_connections := connections n |}.

(** A run used as example: two servers, Arith on the first, one address
    each, two clients, the second disabled. *)
Definition sample_ops : list op :=
  [OpNewServer; OpRegisterName 0 "" Arith; OpAccept 0 "test" "addr1";
   OpNewServer; OpAccept 1 "test" "addr2";
   OpDail "test" "addr1"; OpDail "test" "addr2"; OpDisableClient "client-1"].

Definition net_sample : Network := run NewNetwork sample_ops.

(** A receiver with a conforming and two non-conforming methods. *)
Definition Mixed : Receiver :=
  {| typ_Name := ""; indirect_Name := "Mixed";
     typ_Methods := [Add_method; Fail_method; Print_method]; rcvr_Value := VPtr 0 |}.

(** * Properties *)

(** ** The effect monad *)

Lemma bind_ret_l {A B} (a : A) (f : A → M B) (env : Env) :
  bind (ret a) f env = f a env.
Proof. reflexivity. Qed.

Lemma bind_Ret {A B} (c : M A) (f : A → M B) (env env' : Env) (a : A) :
  c env = (Ret a, env') → bind c f env = f a env'.
Proof. intros H. unfold bind. by rewrite H. Qed.

Lemma bind_Panic {A B} (c : M A) (f : A → M B) (env env' : Env) (msg : string) :
  c env = (Panic msg, env') → bind c f env = (Panic msg, env').
Proof. intros H. unfold bind. by rewrite H. Qed.

Lemma bind_Hang {A B} (c : M A) (f : A → M B) (env env' : Env) :
  c env = (Hang, env') → bind c f env = (Hang, env').
Proof. intros H. unfold bind. by rewrite H. Qed.

(** ** Service registry and Server *)

Lemma getMethod_present (s : service) (name : string) (m : Method) :
  service_methods s !! name = Some m → service.getMethod s name = Ok m.
Proof. intros H. unfold service.getMethod. by rewrite H. Qed.

Lemma getMethod_absent (s : service) (name : string) :
  service_methods s !! name = None →
  service.getMethod s name
  = Fail ("rpc: Can't find method " +:+ name +:+ " of service " +:+ service_name s).
Proof. intros H. unfold service.getMethod. by rewrite H. Qed.

Lemma validMethodType_shape (typ : FuncType) :
  validMethodType typ = true → NumIn typ = 3 ∧ NumOut typ = 0.
Proof.
  unfold validMethodType.
  destruct (NumIn typ =? 3)%nat eqn:Hin; simpl; [|discriminate].
  destruct (NumOut typ =? 0)%nat eqn:Hout; simpl; [|discriminate].
  intros _. split; by apply Nat.eqb_eq.
Qed.

Lemma validMethodType_pointers (typ : FuncType) :
  validMethodType typ = true →
  ins_kinds typ !! 1 = Some Ptr ∧ ins_kinds typ !! 2 = Some Ptr.
Proof.
  intros H. destruct (validMethodType_shape typ H) as [Hin _].
  unfold validMethodType in H. rewrite Hin in H. simpl in H.
  destruct (NumOut typ =? 0)%nat; simpl in H; [|discriminate].
  apply andb_prop in H as [H1 H2]. apply andb_prop in H2 as [H2 _].
  split; by eapply bool_decide_eq_true_1.
Qed.

(** The registration loop never changes the length of the slice it was
    given: what is not selected stays a zero Method. *)
Lemma selectMethods_length (typ_methods : list Method) :
  length (Server.selectMethods typ_methods) = length typ_methods.
Proof.
  unfold Server.selectMethods.
  set (f := λ (methods : list Method) (i : nat), _).
  assert (Hf : ∀ is_ acc, length (foldl f acc is_) = length acc).
  { induction is_ as [|i is_ IH]; intros acc; simpl; [done|].
    rewrite IH. unfold f. destruct (typ_methods !! i) as [m|]; [|done].
    destruct (_ && _); [apply length_insert | done]. }
  rewrite Hf. apply length_replicate.
Qed.

(** Registration reports "no exported methods" exactly for a receiver
    type without any exported method, whatever their signatures. *)
Lemma RegisterName_type_error (server : Server) (name : string) (rcvr : Receiver) :
  typ_Methods rcvr = [] →
  Server.RegisterName server name rcvr
  = (server, Some ("rpc.Register: type " +:+ typ_Name rcvr +:+ " has no exported methods")).
Proof. intros H. unfold Server.RegisterName. by rewrite H. Qed.

Lemma RegisterName_adds_service (server : Server) (name : string) (rcvr : Receiver) :
  typ_Methods rcvr ≠ [] →
  ∃ s key, Server.RegisterName server name rcvr = Server.addService server key s.
Proof.
  intros H. unfold Server.RegisterName.
  rewrite selectMethods_length.
  destruct (typ_Methods rcvr) as [|m ms] eqn:E; [done|]. simpl length.
  simpl Nat.eqb. cbv iota. eauto.
Qed.

Lemma Server_dispatch_undefined (server : Server) (svc method : string)
    (args reply : value) (env : Env) :
  Server_services server !! svc = None →
  Server.dispatch server svc method args reply env = (Ret nil, env).
Proof. intros H. unfold Server.dispatch, Server.getService. by rewrite H. Qed.

Lemma Server_dispatch_defined (server : Server) (svc method : string) (s : service)
    (args reply : value) :
  Server_services server !! svc = Some s →
  Server.dispatch server svc method args reply = service.dispatch s method args reply.
Proof. intros H. unfold Server.dispatch, Server.getService. by rewrite H. Qed.

(** C1: Server.dispatch on a service name absent from the service map
    is claimed to fail with the "service undefined" error.  On a fresh
    server, getService produces that error, but dispatch discards it and
    returns nil; no method is invoked and the environment is unchanged. *)
Theorem Server_dispatch_unknown_service_returns_nil :
  Server_services (newServer "server-0") !! "Arith" = None ∧
  Server.getService (newServer "server-0") "Arith" = Fail "rpc: service Arith undefined" ∧
  Server.dispatch (newServer "server-0") "Arith" "Add" (VPtr 1) (VPtr 2) env0
  = (Ret nil, env0).
Proof. repeat split. Qed.

(** What dispatch does on any service: a method present with a callable
    function is invoked once with the receiver, args and reply, what it
    returns is discarded and nil is answered; for an absent method name
    nothing is invoked and the error is built from the method name and
    the service's name field.  The methods registration admits have no
    return value. *)
Lemma service_dispatch_runs
    (s : service) (method : string) (args reply : value) (env : Env) :
  (∀ m f mem' outs,
     service_methods s !! method = Some m →
     Func m = Some f →
     f [service_receiver s; args; reply] (mem env) = Some (mem', outs) →
     service.dispatch s method args reply env
     = (Ret nil,
        with_mem (log (ECall (Name m) [service_receiver s; args; reply]) env) mem'))
  ∧ (service_methods s !! method = None →
     service.dispatch s method args reply env
     = (Ret (Some ("rpc: Can't find method " +:+ method +:+ " of service "
                   +:+ service_name s)), env))
  ∧ (∀ m, validMethodType (Type_ m) = true → outs_kinds (Type_ m) = []).
Proof.
  split; [|split].
  - intros m f mem' outs Hm Hf Hcall.
    unfold service.dispatch. rewrite (getMethod_present _ _ _ Hm).
    unfold Method_Call. rewrite Hf.
    unfold bind, emit, invoke. simpl. by rewrite Hcall.
  - intros Hm. unfold service.dispatch. by rewrite (getMethod_absent _ _ Hm).
  - intros m Hv. apply validMethodType_shape in Hv as [_ Hout].
    by apply nil_length_inv.
Qed.

(** C5: dispatch on a registered service is claimed to name the method
    and the service when the method is absent, and to invoke every
    method whose name is in the table.  The service RegisterName stores
    for Arith under "Arith" has an empty name field, and dispatch of the
    absent "Sub" answers "rpc: Can't find method Sub of service ", with
    no service named.  The service it stores for Logger holds the empty
    name in its table, bound to a zero Method, and dispatch of that name
    panics instead of invoking a method. *)
Theorem registered_service_dispatch_errs :
  (∃ s, Server_services (Server.RegisterName (newServer "server-0") "Arith" Arith).1
          !! "Arith" = Some s
        ∧ service_name s = ""
        ∧ service_methods s !! "Sub" = None
        ∧ service.dispatch s "Sub" (VPtr 1) (VPtr 2) env0
          = (Ret (Some "rpc: Can't find method Sub of service "), env0))
  ∧ (∃ s, Server_services (Server.RegisterName (newServer "server-0") "" Logger).1
            !! "Logger" = Some s
          ∧ service_methods s !! "" = Some zeroMethod
          ∧ service.dispatch s "" (VPtr 1) (VPtr 2) env0
            = (Panic "reflect: call of reflect.Value.Call on zero Value", env0)).
Proof.
  split; eexists; (split; [reflexivity|]); repeat split.
Qed.

(** C6: registration of a receiver none of whose methods conforms is
    claimed to fail, and only conforming methods are claimed to enter
    the table.  Logger has one exported method, with a by-value
    parameter: registration succeeds, and the table of the new service
    holds a zero Method under the empty name and no "Print". *)
Theorem RegisterName_accepts_nonconforming_receiver :
  validMethodType (Type_ Print_method) = false ∧
  (Server.RegisterName (newServer "server-0") "" Logger).2 = nil ∧
  service_methods <$>
    (Server_services (Server.RegisterName (newServer "server-0") "" Logger).1 !! "Logger")
  = Some {[ "" := zeroMethod ]}.
Proof. repeat split. Qed.

(** ** Strings *)

Lemma append_cons (c : ascii) (s t : string) :
  String c s +:+ t = String c (s +:+ t).
Proof. reflexivity. Qed.

Lemma append_assoc (s t u : string) : (s +:+ t) +:+ u = s +:+ (t +:+ u).
Proof.
  induction s as [|c s IH]; [done|].
  rewrite !append_cons. by rewrite IH.
Qed.

Lemma length_append (s t : string) :
  String.length (s +:+ t) = String.length s + String.length t.
Proof.
  induction s as [|c s IH]; [done|].
  rewrite append_cons. simpl. by rewrite IH.
Qed.

Lemma joinAddress_shift (p q r : string) :
  joinAddress p (q +:+ "-" +:+ r) = joinAddress (p +:+ "-" +:+ q) r.
Proof. unfold joinAddress. by rewrite !append_assoc. Qed.

Lemma append_dash_ne (p q : string) : p ≠ p +:+ "-" +:+ q.
Proof.
  intros H. apply (f_equal String.length) in H.
  rewrite !length_append in H. simpl in H. lia.
Qed.

Lemma strings_Split_length (sep : ascii) (s : string) :
  length (strings_Split s sep) = S (count_sep sep s).
Proof.
  induction s as [|c s IH]; [done|]. simpl.
  destruct (Ascii.eqb c sep); simpl; [by rewrite IH|].
  destruct (strings_Split s sep); simpl in *; lia.
Qed.

Lemma strings_Split_no_sep (sep : ascii) (s : string) :
  count_sep sep s = 0 → strings_Split s sep = [s].
Proof.
  induction s as [|c s IH]; [done|]. simpl.
  destruct (Ascii.eqb c sep); [done|]. simpl. intros H. by rewrite IH.
Qed.

Lemma strings_Split_app (sep : ascii) (s t : string) :
  count_sep sep s = 0 →
  strings_Split (s +:+ String sep t) sep = s :: strings_Split t sep.
Proof.
  induction s as [|c s IH].
  - intros _. change ("" +:+ String sep t) with (String sep t). simpl.
    by rewrite Ascii.eqb_refl.
  - rewrite append_cons. simpl.
    destruct (Ascii.eqb c sep); [done|]. simpl. intros H. by rewrite IH.
Qed.

(** A string with exactly one separator is two separator-free halves. *)
Lemma one_sep_decompose (sep : ascii) (s : string) :
  count_sep sep s = 1 →
  ∃ a b, s = a +:+ String sep b ∧ count_sep sep a = 0 ∧ count_sep sep b = 0.
Proof.
  induction s as [|c s IH]; [done|]. simpl.
  destruct (Ascii.eqb_spec c sep) as [->|Hne]; simpl.
  - intros H. exists "", s. repeat split. lia.
  - intros H. destruct (IH H) as (a & b & -> & Ha & Hb).
    exists (String c a), b. rewrite append_cons. repeat split; [|done].
    simpl. destruct (Ascii.eqb_spec c sep); [done|]. done.
Qed.

Lemma parseServiceMethod_pair (service method : string) :
  count_sep "." service = 0 → count_sep "." method = 0 →
  parseServiceMethod (service +:+ "." +:+ method) = Ok (service, method).
Proof.
  intros Hs Hm. unfold parseServiceMethod.
  change ("." +:+ method) with (String "."%char method).
  rewrite strings_Split_app by done. by rewrite strings_Split_no_sep.
Qed.

Lemma parseServiceMethod_invalid (s : string) :
  count_sep "." s ≠ 1 →
  parseServiceMethod s = Fail ("rpc: invalid service methods: " +:+ s).
Proof.
  intros H. unfold parseServiceMethod.
  pose proof (strings_Split_length "." s) as Hlen.
  destruct (strings_Split s ".") as [|t0 [|t1 [|t2 ts]]]; simpl in Hlen; try done.
  lia.
Qed.

(** ** The fabric's directories *)

Section directories.
Variable n : Network.

Lemma registerServer_bound (owner name network address : string) :
  addressMap n !! joinAddress network address = Some owner →
  Network.registerServer n name network address = n.
Proof. intros H. unfold Network.registerServer. by rewrite H. Qed.

Lemma registerServer_fresh (name network address : string) :
  addressMap n !! joinAddress network address = None →
  addressMap (Network.registerServer n name network address)
    !! joinAddress network address = Some name.
Proof.
  intros H. unfold Network.registerServer. rewrite H. simpl.
  apply lookup_insert_eq.
Qed.

Lemma registerServer_servers (name network address : string) :
  servers (Network.registerServer n name network address) = servers n
  ∧ objects (Network.registerServer n name network address) = objects n.
Proof. unfold Network.registerServer. by destruct (addressMap n !! _). Qed.

Lemma closeClient_known (name : string) (c : Client) :
  clients n !! name = Some c →
  Network.closeClient n name = (n, Some "rpc: client not exist").
Proof. intros H. unfold Network.closeClient. by rewrite H. Qed.

Lemma closeClient_unknown (name : string) :
  clients n !! name = None →
  (Network.closeClient n name).2 = nil
  ∧ clients (Network.closeClient n name).1 = clients n.
Proof.
  intros H. unfold Network.closeClient. rewrite H. simpl.
  split; [done|]. by apply delete_id.
Qed.

Lemma getServer_live (name : string) (server : nat) :
  servers n !! name = Some server → Network.getServer n name = Ok server.
Proof. intros H. unfold Network.getServer. by rewrite H. Qed.

Lemma getServer_missed (name : string) :
  servers n !! name = None → Network.getServer n name = Fail "rpc: server missed".
Proof. intros H. unfold Network.getServer. by rewrite H. Qed.

End directories.

(** A binding, once made, survives every later registerServer call. *)
Lemma registerAll_keeps (calls : list (string * string * string)) :
  ∀ (n : Network) (key owner : string),
    addressMap n !! key = Some owner →
    addressMap (registerAll n calls) !! key = Some owner.
Proof.
  induction calls as [|[[name network] address] calls IH]; intros n key owner H.
  - done.
  - simpl. apply IH. unfold Network.registerServer.
    destruct (addressMap n !! joinAddress network address) as [o|] eqn:E; [done|].
    simpl. rewrite lookup_insert_ne; [done|]. congruence.
Qed.

(** C7: the first registerServer call for a (network, address) key binds
    it; every later call for the same key, whatever server name it
    carries, leaves the fabric as it is, and no run of later calls
    changes the binding.  registerServer yields the fabric only: there
    is no error to surface. *)
Theorem registerServer_first_wins (n : Network) (first network address : string)
    (later : list (string * string * string)) :
  addressMap n !! joinAddress network address = None →
  let n1 := Network.registerServer n first network address in
  addressMap n1 !! joinAddress network address = Some first
  ∧ (∀ name, Network.registerServer n1 name network address = n1)
  ∧ addressMap (registerAll n1 later) !! joinAddress network address = Some first.
Proof.
  intros Hfree n1.
  assert (H1 : addressMap n1 !! joinAddress network address = Some first)
    by by apply registerServer_fresh.
  split; [done|]. split.
  - intros name. by eapply registerServer_bound.
  - by apply registerAll_keeps.
Qed.

Lemma registerServer_first_wins_witness :
  addressMap (Network.registerServer net_two "server-0" "test" "addr1") !! "test-addr1"
  = Some "server-0"
  ∧ (∀ name,
       Network.registerServer (Network.registerServer net_two "server-0" "test" "addr1")
         name "test" "addr1"
       = Network.registerServer net_two "server-0" "test" "addr1")
  ∧ addressMap
      (registerAll (Network.registerServer net_two "server-0" "test" "addr1")
         [("server-1", "test", "addr1"); ("server-1", "test", "addr2")])
      !! "test-addr1"
    = Some "server-0".
Proof.
  apply (registerServer_first_wins net_two "server-0" "test" "addr1"
           [("server-1", "test", "addr1"); ("server-1", "test", "addr2")]).
  vm_compute. reflexivity.
Defined.

(** C10: the key of (p, q-r) and of (p-q, r) is the same string, though
    the pairs differ.  Once a live server accepted on the first pair,
    Dail on the second pair, which nobody registered, succeeds and
    connects the new client to that server, while it failed before; and
    a registration for the second pair is the no-op of a taken key. *)
Theorem joinAddress_pairs_collide (n : Network) (server : nat) (p q r : string) :
  servers n !! Server_name (objects n server) = Some server →
  addressMap n !! joinAddress p (q +:+ "-" +:+ r) = None →
  let n1 := Server_Accept n server p (q +:+ "-" +:+ r) in
  (p, q +:+ "-" +:+ r) ≠ (p +:+ "-" +:+ q, r)
  ∧ joinAddress p (q +:+ "-" +:+ r) = joinAddress (p +:+ "-" +:+ q) r
  ∧ is_Fail (Network.Dail n (p +:+ "-" +:+ q) r).2 = true
  ∧ (∃ n2 c, Network.Dail n1 (p +:+ "-" +:+ q) r = (n2, Ok c)
             ∧ connections n2 !! Client_name c = Some (Server_name (objects n server)))
  ∧ (∀ name, Network.registerServer n1 name (p +:+ "-" +:+ q) r = n1).
Proof.
  intros Hlive Hfree n1. subst n1. unfold Server_Accept.
  set (n1 := Network.registerServer n _ p _).
  pose proof (joinAddress_shift p q r) as Hkey.
  assert (H1 : addressMap n1 !! joinAddress (p +:+ "-" +:+ q) r
               = Some (Server_name (objects n server))).
  { rewrite <- Hkey. by apply registerServer_fresh. }
  split; [|split; [done|split; [|split]]].
  - intros [= H _]. by apply append_dash_ne in H.
  - unfold Network.Dail, Network.getServerByAddress.
    rewrite <- Hkey, Hfree. done.
  - destruct (registerServer_servers n (Server_name (objects n server))
                p (q +:+ "-" +:+ r)) as [Hs Ho].
    unfold Network.Dail, Network.getServerByAddress.
    rewrite H1. fold n1 in Hs, Ho. rewrite Hs, Hlive.
    unfold Network.createClient. eexists _, _. split; [reflexivity|].
    simpl. rewrite lookup_insert_eq. by rewrite Ho.
  - intros name. by eapply registerServer_bound.
Qed.

Lemma joinAddress_pairs_collide_witness :
  ("a", "b-c") ≠ ("a-b", "c")
  ∧ joinAddress "a" "b-c" = joinAddress "a-b" "c"
  ∧ is_Fail (Network.Dail net_arith "a-b" "c").2 = true
  ∧ (∃ n2 c, Network.Dail (Server_Accept net_arith 0 "a" "b-c") "a-b" "c" = (n2, Ok c)
             ∧ connections n2 !! Client_name c = Some "server-0")
  ∧ (∀ name,
       Network.registerServer (Server_Accept net_arith 0 "a" "b-c") name "a-b" "c"
       = Server_Accept net_arith 0 "a" "b-c").
Proof.
  apply (joinAddress_pairs_collide net_arith 0 "a" "b" "c");
    vm_compute; reflexivity.
Defined.

(** C4: closing a client is claimed to remove it without error, a second
    close to report "client not found".  For the client Dail created,
    the first Close already answers the error and leaves the fabric,
    the client and its enabled entry in place; closing a name the fabric
    never knew answers nil. *)
Theorem Close_known_client_errors :
  clients net_dialled !! "client-0" = Some client0 ∧
  Client.Close net_dialled client0 = (net_dialled, Some "rpc: client not exist") ∧
  enabled (Client.Close net_dialled client0).1 !! "client-0" = Some true ∧
  (Network.closeClient net_dialled "client-7").2 = nil.
Proof. repeat split. Qed.

(** C8: NewServer is claimed to pick a name no live server has.  After
    two servers were created and the first removed, one server is left
    and the count is 1: the third server is named "server-1" like the
    live second one, whose directory entry now points to the new, empty
    server. *)
Theorem NewServer_reuses_live_name :
  servers net_removed !! "server-1" = Some 1 ∧
  Server_name (objects net_removed 1) = "server-1" ∧
  is_Some (Server_services (objects net_removed 1) !! "Arith") ∧
  (Network.NewServer net_removed).2 = 2 ∧
  Server_name (objects net_third 2) = "server-1" ∧
  servers net_third !! "server-1" = Some 2 ∧
  size (servers net_third) = 1 ∧
  Server_services (objects net_third 2) = ∅.
Proof. repeat split. vm_compute. eauto. Qed.

(** ** Client.Call and the service-method string *)

(** C9 as stated fails: ".Add" splits into two components, the first of
    them empty, and the call is not refused but forwarded with the empty
    service name. *)
Lemma Call_forwards_empty_service :
  strings_Split ".Add" "." = [""; "Add"] ∧
  parseServiceMethod ".Add" = Ok ("", "Add") ∧
  Client.Call net_dialled client0 ".Add" (VPtr 1) (VPtr 2)
  = Network.dispatch net_dialled "server-0" "client-0" "" "Add" (VPtr 1) (VPtr 2).
Proof. repeat split. Qed.

(** C9, amended: the call fails with the format error exactly when the
    string does not hold exactly one dot, that is when the split does
    not yield exactly two components, empty or not; it then does nothing
    else.  With exactly one dot the string is service.method for the two
    dot-free components the split yields, and for a connected client
    that pair is what the fabric's dispatch receives. *)
Theorem call_format_error_iff_not_one_dot
    (n : Network) (clientName s : string) (args reply : value) :
  (is_Fail (parseServiceMethod s) = true ↔ count_sep "." s ≠ 1)
  ∧ (count_sep "." s ≠ 1 →
     Network.call n clientName s args reply
     = ret (Some ("rpc: invalid service methods: " +:+ s)))
  ∧ (count_sep "." s = 1 →
     ∃ service method,
       s = service +:+ "." +:+ method
       ∧ strings_Split s "." = [service; method]
       ∧ ∀ serverName,
           connections n !! clientName = Some serverName →
           Network.call n clientName s args reply
           = Network.dispatch n serverName clientName service method args reply).
Proof.
  split; [|split].
  - split.
    + intros Hfail Hone.
      destruct (one_sep_decompose "." s Hone) as (a & b & -> & Ha & Hb).
      change (String "."%char b) with ("." +:+ b) in Hfail.
      by rewrite parseServiceMethod_pair in Hfail.
    + intros H. by rewrite parseServiceMethod_invalid.
  - intros H. unfold Network.call. by rewrite parseServiceMethod_invalid.
  - intros Hone.
    destruct (one_sep_decompose "." s Hone) as (a & b & -> & Ha & Hb).
    exists a, b. split; [done|]. split.
    + rewrite strings_Split_app by done. by rewrite strings_Split_no_sep.
    + intros serverName Hconn. unfold Network.call.
      change (String "."%char b) with ("." +:+ b).
      rewrite parseServiceMethod_pair by done. by rewrite Hconn.
Qed.

Lemma call_format_error_iff_not_one_dot_witness :
  Network.call net_dialled "client-0" "Arith.Add.x" (VPtr 1) (VPtr 2)
  = ret (Some "rpc: invalid service methods: Arith.Add.x")
  ∧ ∃ service method,
      "Arith.Add" = service +:+ "." +:+ method
      ∧ strings_Split "Arith.Add" "." = [service; method]
      ∧ ∀ serverName,
          connections net_dialled !! "client-0" = Some serverName →
          Network.call net_dialled "client-0" "Arith.Add" (VPtr 1) (VPtr 2)
          = Network.dispatch net_dialled serverName "client-0" service method
              (VPtr 1) (VPtr 2).
Proof.
  split.
  - apply (proj1 (proj2 (call_format_error_iff_not_one_dot
                           net_dialled "client-0" "Arith.Add.x" (VPtr 1) (VPtr 2)))).
    vm_compute. lia.
  - apply (proj2 (proj2 (call_format_error_iff_not_one_dot
                           net_dialled "client-0" "Arith.Add" (VPtr 1) (VPtr 2)))).
    reflexivity.
Defined.

(** ** The fault-injection pipeline *)

Lemma rem_range (r range : Z) : (0 ≤ r → 0 < range → 0 ≤ Z.rem r range < range)%Z.
Proof. intros Hr Hrange. rewrite Z.rem_mod_nonneg by lia. by apply Z.mod_pos_bound. Qed.

Lemma next_draw_range (env : Env) : (0 ≤ next_draw env < 2 ^ 63)%Z.
Proof. unfold next_draw. by apply Z.mod_pos_bound. Qed.

Lemma next_draw_nonneg (env : Env) : (0 ≤ next_draw env)%Z.
Proof. apply next_draw_range. Qed.

(** The branch of a disabled client or a removed server. *)
Lemma dispatch_no_reply (n : Network) (serverName clientName service method : string)
    (args reply : value) (env : Env) :
  default false (enabled n !! clientName) = false ∨ servers n !! serverName = None →
  Network.dispatch n serverName clientName service method args reply env
  = (Ret timeoutErr,
     log (ESleep (Z.rem (next_draw env) (if longDelay n then longTimeout else shortTimeout)))
         (advance env)).
Proof.
  intros H. unfold Network.dispatch, Network.networkCondition.
  assert (negb (default false (enabled n !! clientName))
          || is_Fail (Network.getServer n serverName) = true) as ->.
  { destruct H as [-> | H]; [done|].
    rewrite (getServer_missed _ _ H). apply orb_true_r. }
  by destruct (longDelay n).
Qed.

(** The pipeline for an enabled client of a live server. *)
Lemma dispatch_proceeds (n : Network) (serverName clientName service method : string)
    (server : nat) (args reply : value) :
  default false (enabled n !! clientName) = true →
  servers n !! serverName = Some server →
  Network.dispatch n serverName clientName service method args reply
  = (let* lost := (if negb (reliable n) then Network.msgLost else ret false) in
     if lost then ret timeoutErr
     else
       let* _ := (if negb (reliable n)
                  then let* r := rand_Int in time_Sleep (Z.rem r shortDelay)
                  else ret ()) in
       let* err := Server.dispatch (objects n server) service method args reply in
       let* lost := (if negb (reliable n) then Network.msgLost else ret false) in
       if lost then ret timeoutErr
       else
         let* _ := (if longReorder n
                    then let* d := Network.responseDelay in time_Sleep d
                    else ret ()) in
         ret err).
Proof.
  intros Hen Hsrv. unfold Network.dispatch, Network.networkCondition.
  rewrite Hen, (getServer_live _ _ _ Hsrv). reflexivity.
Qed.


Lemma setClientEnable_enabled (n : Network) (name : string) (c : Client) (b : bool) :
  clients n !! name = Some c →
  enabled (Network.setClientEnable n name b) !! name = Some b
  ∧ clients (Network.setClientEnable n name b) = clients n
  ∧ servers (Network.setClientEnable n name b) = servers n
  ∧ objects (Network.setClientEnable n name b) = objects n
  ∧ reliable (Network.setClientEnable n name b) = reliable n
  ∧ longDelay (Network.setClientEnable n name b) = longDelay n
  ∧ longReorder (Network.setClientEnable n name b) = longReorder n.
Proof.
  intros H. unfold Network.setClientEnable. rewrite H. simpl.
  by rewrite lookup_insert_eq.
Qed.

Lemma Enable_after_Disable (n : Network) (name : string) (c : Client) :
  clients n !! name = Some c →
  enabled n !! name = Some true →
  Network.EnableClient (Network.DisableClient n name) name = n.
Proof.
  intros Hc He.
  unfold Network.EnableClient, Network.DisableClient, Network.setClientEnable.
  rewrite Hc. simpl. rewrite Hc.
  unfold with_enabled. simpl. rewrite insert_insert_eq, (insert_id _ _ _ He).
  by destruct n.
Qed.

(** C2: when the client's enabled flag is false or the destination
    server name is not in the servers directory, dispatch consumes one
    draw, sleeps for that draw reduced below 100 ms (longDelay off) or
    below 7000 ms (longDelay on), and answers the timeout error; the
    trace gains that sleep and nothing else, so no method is invoked and
    the memory is untouched.  Disabling a known client leads to that
    branch; enabling it again sets its flag, gives back the very fabric
    when the client was enabled before, and on a reliable fabric without
    reordering a call is then the server's dispatch. *)
Theorem dispatch_disabled_or_missing_times_out
    (n : Network) (serverName clientName service method : string)
    (args reply : value) (env : Env) :
  let range := if longDelay n then longTimeout else shortTimeout in
  let no_reply :=
    (Ret timeoutErr, log (ESleep (Z.rem (next_draw env) range)) (advance env)) in
  (default false (enabled n !! clientName) = false ∨ servers n !! serverName = None →
   Network.dispatch n serverName clientName service method args reply env = no_reply
   ∧ (0 ≤ Z.rem (next_draw env) range < range)%Z
   ∧ (shortTimeout < longTimeout)%Z)
  ∧ (∀ c server,
       clients n !! clientName = Some c →
       servers n !! serverName = Some server →
       let off := Network.DisableClient n clientName in
       let on := Network.EnableClient off clientName in
       Network.dispatch off serverName clientName service method args reply env
       = no_reply
       ∧ Network.networkCondition on clientName
         = (true, reliable n, longDelay n, longReorder n)
       ∧ (enabled n !! clientName = Some true → on = n)
       ∧ (reliable n = true → longReorder n = false →
          Network.dispatch on serverName clientName service method args reply env
          = Server.dispatch (objects n server) service method args reply env)).
Proof.
  intros range no_reply. split.
  - intros H. split; [by apply dispatch_no_reply|]. split; [|done].
    apply rem_range; [apply next_draw_nonneg|]. subst range.
    by destruct (longDelay n).
  - intros c server Hc Hs off on.
    destruct (setClientEnable_enabled n clientName c false Hc)
      as (Heo & Hco & Hso & Hoo & Hro & Hdo & Hlo).
    fold (Network.DisableClient n clientName) in Heo, Hco, Hso, Hoo, Hro, Hdo, Hlo.
    fold off in Heo, Hco, Hso, Hoo, Hro, Hdo, Hlo.
    assert (Hc' : clients off !! clientName = Some c) by by rewrite Hco.
    destruct (setClientEnable_enabled off clientName c true Hc')
      as (Hen & _ & Hsn & Hon & Hrn & Hdn & Hln).
    fold (Network.EnableClient off clientName) in Hen, Hsn, Hon, Hrn, Hdn, Hln.
    fold on in Hen, Hsn, Hon, Hrn, Hdn, Hln.
    split; [|split; [|split]].
    + subst no_reply range. rewrite <- Hdo.
      apply dispatch_no_reply. left. by rewrite Heo.
    + unfold Network.networkCondition.
      rewrite Hen, Hrn, Hdn, Hln, Hro, Hdo, Hlo. done.
    + intros He. by eapply Enable_after_Disable.
    + intros Hrel Hre.
      rewrite (dispatch_proceeds on serverName clientName service method server);
        [|by rewrite Hen|by rewrite Hsn, Hso].
      rewrite Hrn, Hro, Hrel, Hln, Hlo, Hre, Hon, Hoo. simpl.
      unfold bind at 1 2. simpl. unfold bind.
      by destruct (Server.dispatch _ _ _ _ _ env) as [[err|msg|] env'].
Qed.

Lemma dispatch_disabled_or_missing_times_out_witness :
  (Network.dispatch (Network.DisableClient net_dialled "client-0")
     "server-0" "client-0" "Arith" "Add" (VPtr 1) (VPtr 2) env0
   = (Ret timeoutErr, log (ESleep 37) (advance env0)))
  ∧ (Network.dispatch net_dialled
       "server-9" "client-0" "Arith" "Add" (VPtr 1) (VPtr 2) env0
     = (Ret timeoutErr, log (ESleep 37) (advance env0)))
  ∧ (Network.dispatch
       (Network.EnableClient (Network.DisableClient net_dialled "client-0") "client-0")
       "server-0" "client-0" "Arith" "Add" (VPtr 1) (VPtr 2) env0
     = Server.dispatch (objects net_dialled 0) "Arith" "Add" (VPtr 1) (VPtr 2) env0).
Proof.
  split; [|split].
  - apply (proj1 (dispatch_disabled_or_missing_times_out
                    (Network.DisableClient net_dialled "client-0")
                    "server-0" "client-0" "Arith" "Add" (VPtr 1) (VPtr 2) env0)).
    left. reflexivity.
  - apply (proj1 (dispatch_disabled_or_missing_times_out net_dialled
                    "server-9" "client-0" "Arith" "Add" (VPtr 1) (VPtr 2) env0)).
    right. reflexivity.
  - apply (proj2 (dispatch_disabled_or_missing_times_out net_dialled
                    "server-0" "client-0" "Arith" "Add" (VPtr 1) (VPtr 2) env0)
             client0 0); reflexivity.
Defined.







(** * Further properties of the registry *)

(** X1: validMethodType accepts exactly the method types with three
    inputs, the receiver and two pointers, and no output; the kind of
    the receiver is not looked at. *)
Theorem validMethodType_iff (typ : FuncType) :
  validMethodType typ = true
  ↔ ∃ k, ins_kinds typ = [k; Ptr; Ptr] ∧ outs_kinds typ = [].
Proof.
  split.
  - intros H.
    destruct (validMethodType_shape typ H) as [Hin Hout].
    destruct (validMethodType_pointers typ H) as [H1 H2].
    unfold NumIn, NumOut in *.
    destruct (ins_kinds typ) as [|k [|a [|b [|c l]]]]; simpl in *; try done.
    exists k. split; [congruence|]. by apply nil_length_inv.
  - intros (k & Hin & Hout). unfold validMethodType, NumIn, NumOut.
    by rewrite Hin, Hout.
Qed.

(** The slice after the registration loop, position by position. *)
Lemma selectMethods_take (typ_methods : list Method) (k : nat) :
  (k ≤ length typ_methods)%nat →
  foldl (λ methods i,
           match typ_methods !! i with
           | Some method =>
               if bool_decide (PkgPath method = "") && validMethodType (Type_ method)
               then <[i := method]> methods
               else methods
           | None => methods
           end)
        (replicate (length typ_methods) zeroMethod) (seq 0 k)
  = (((λ m, if bool_decide (PkgPath m = "") && validMethodType (Type_ m)
            then m else zeroMethod) <$> take k typ_methods)
     ++ replicate (length typ_methods - k) zeroMethod)%list.
Proof.
  induction k as [|k IH]; intros Hk.
  - simpl. by rewrite Nat.sub_0_r.
  - rewrite seq_S, foldl_app. simpl. rewrite IH by lia. clear IH.
    destruct (lookup_lt_is_Some_2 typ_methods k) as [m Hm]; [lia|].
    rewrite Hm. rewrite (take_S_r _ _ _ Hm), fmap_app. simpl.
    replace (length typ_methods - k) with (S (length typ_methods - S k)) by lia.
    simpl. rewrite <- app_assoc. simpl.
    destruct (_ && _); [|done].
    rewrite insert_app_r_alt; rewrite length_fmap, length_take; [|lia].
    replace (k - k `min` length typ_methods) with 0 by lia. done.
Qed.

Lemma selectMethods_fmap (typ_methods : list Method) :
  Server.selectMethods typ_methods
  = (λ m, if bool_decide (PkgPath m = "") && validMethodType (Type_ m)
          then m else zeroMethod) <$> typ_methods.
Proof.
  unfold Server.selectMethods. rewrite selectMethods_take by done.
  rewrite Nat.sub_diag, firstn_all. simpl. apply app_nil_r.
Qed.

Section method_table.
Variable k : string.

Lemma table_lookup_last (ms : list Method) :
  ∀ (tbl : gmap string Method) (m : Method),
    Name m = k →
    (m ∈ ms ∨ tbl !! k = Some m) →
    (∀ m', m' ∈ ms → Name m' = k → m' = m) →
    foldl (λ tbl m, <[Name m := m]> tbl) tbl ms !! k = Some m.
Proof.
  induction ms as [|x ms IH]; intros tbl m Hname Hin Huniq; simpl.
  - destruct Hin as [Hin|Hin]; [by apply elem_of_nil in Hin | done].
  - apply IH; [done| |].
    + destruct (decide (Name x = k)) as [Hx|Hx].
      * right. rewrite (Huniq x) by (by constructor || done).
        rewrite Hname. apply lookup_insert_eq.
      * destruct Hin as [Hin|Hin].
        -- apply elem_of_cons in Hin as [->|Hin]; [done | by left].
        -- right. by rewrite lookup_insert_ne.
    + intros m' Hm'. apply Huniq. by constructor.
Qed.

Lemma table_lookup_frame (ms : list Method) :
  ∀ (tbl : gmap string Method),
    (∀ m', m' ∈ ms → Name m' ≠ k) →
    foldl (λ tbl m, <[Name m := m]> tbl) tbl ms !! k = tbl !! k.
Proof.
  induction ms as [|x ms IH]; intros tbl Hno; simpl; [done|].
  rewrite IH.
  - apply lookup_insert_ne. apply Hno. by constructor.
  - intros m' Hm'. apply Hno. by constructor.
Qed.

Lemma table_lookup_given (ms : list Method) :
  ∀ (tbl : gmap string Method),
    (∃ m0, m0 ∈ ms ∧ Name m0 = k) →
    ∃ m', foldl (λ tbl m, <[Name m := m]> tbl) tbl ms !! k = Some m'
          ∧ Name m' = k ∧ m' ∈ ms.
Proof.
  induction ms as [|x ms IH] using rev_ind; intros tbl (m0 & Hin & Hname).
  - by apply elem_of_nil in Hin.
  - rewrite foldl_app. simpl. destruct (decide (Name x = k)) as [Hx|Hx].
    + exists x. rewrite <- Hx, lookup_insert_eq. split; [done|]. split; [done|].
      apply elem_of_app. right. by constructor.
    + rewrite lookup_insert_ne by done.
      apply elem_of_app in Hin as [Hin|Hin].
      * destruct (IH tbl) as (m' & Hm' & Hn' & Hin'); [by exists m0|].
        exists m'. split; [done|]. split; [done|]. apply elem_of_app. by left.
      * apply list_elem_of_singleton in Hin as ->. done.
Qed.

End method_table.

(** X2: addMethods leaves the entries of all names it was not given as
    they were, and leaves the name and receiver of the service alone;
    after it every given method's name is in the table, bound to a given
    method of that name, and the last method given decides. *)
Theorem addMethods_table (s : service) (ms : list Method) :
  service_name (service.addMethods s ms) = service_name s
  ∧ service_receiver (service.addMethods s ms) = service_receiver s
  ∧ (∀ k, (∀ m, m ∈ ms → Name m ≠ k) →
          service_methods (service.addMethods s ms) !! k = service_methods s !! k)
  ∧ (∀ m, m ∈ ms →
          ∃ m', service_methods (service.addMethods s ms) !! Name m = Some m'
                ∧ Name m' = Name m ∧ m' ∈ ms)
  ∧ (∀ m, service_methods (service.addMethods s (ms ++ [m])%list) !! Name m = Some m).
Proof.
  split; [done|]. split; [done|]. split; [|split].
  - intros k Hno. by apply table_lookup_frame.
  - intros m Hm. apply table_lookup_given. by exists m.
  - intros m. simpl. rewrite foldl_app. simpl. apply lookup_insert_eq.
Qed.

Lemma addMethods_table_witness :
  service_methods (service.addMethods failing_service [Add_method]) !! "Fail"
  = Some Fail_method
  ∧ ∃ m', service_methods (service.addMethods failing_service [Add_method]) !! "Add"
          = Some m'
          ∧ Name m' = "Add" ∧ m' ∈ [Add_method].
Proof.
  destruct (addMethods_table failing_service [Add_method])
    as (_ & _ & Hframe & Hgiven & _).
  split.
  - rewrite (Hframe "Fail"); [reflexivity|].
    intros m Hm. apply list_elem_of_singleton in Hm as ->. discriminate.
  - apply (Hgiven Add_method). apply list_elem_of_singleton. reflexivity.
Defined.

Lemma RegisterName_unfold (server : Server) (name : string) (rcvr : Receiver) :
  typ_Methods rcvr ≠ [] →
  Server.RegisterName server name rcvr
  = Server.addService server
      (if (String.length name =? 0)%nat then indirect_Name rcvr else name)
      (service.addMethods
         {| service_name := ""; service_typ := typ_Name rcvr;
            service_receiver := rcvr_Value rcvr; service_methods := ∅ |}
         (Server.selectMethods (typ_Methods rcvr))).
Proof.
  intros H. unfold Server.RegisterName. rewrite selectMethods_length.
  by destruct (typ_Methods rcvr).
Qed.

Lemma NoDup_Name_eq (ms : list Method) (m m' : Method) :
  NoDup (Name <$> ms) → m ∈ ms → m' ∈ ms → Name m = Name m' → m = m'.
Proof.
  intros Hnd Hm Hm' Hname.
  apply list_elem_of_lookup in Hm as [i Hi].
  apply list_elem_of_lookup in Hm' as [j Hj].
  assert (i = j) as ->; [|congruence].
  eapply NoDup_lookup; [exact Hnd| |]; rewrite list_lookup_fmap.
  - by rewrite Hi.
  - rewrite Hj. simpl. by rewrite Hname.
Qed.

(** The table RegisterName builds, at the name of one of the receiver's
    methods. *)
Lemma registered_table_lookup (s : service) (ms : list Method) (m : Method) :
  service_methods s = ∅ →
  NoDup (Name <$> ms) → m ∈ ms → Name m ≠ "" →
  service_methods (service.addMethods s (Server.selectMethods ms)) !! Name m
  = if bool_decide (PkgPath m = "") && validMethodType (Type_ m)
    then Some m else None.
Proof.
  intros Hempty Hnd Hm Hne. simpl. rewrite Hempty, selectMethods_fmap.
  set (sel := λ m : Method, if _ && _ then m else zeroMethod).
  assert (Hsel : ∀ m', m' ∈ sel <$> ms → Name m' = Name m →
                       m' = m ∧ bool_decide (PkgPath m = "")
                                && validMethodType (Type_ m) = true).
  { intros m' Hm' Hname. apply list_elem_of_fmap in Hm' as (m0 & -> & Hm0).
    unfold sel in *.
    destruct (bool_decide (PkgPath m0 = "") && validMethodType (Type_ m0)) eqn:E.
    - assert (m0 = m) as -> by by eapply NoDup_Name_eq. done.
    - simpl in Hname. congruence. }
  destruct (bool_decide (PkgPath m = "") && validMethodType (Type_ m)) eqn:E.
  - apply table_lookup_last; [done| |].
    + left. apply list_elem_of_fmap. exists m. split; [|done].
      unfold sel. by rewrite E.
    + intros m' Hm' Hname. by apply Hsel.
  - rewrite table_lookup_frame; [done|].
    intros m' Hm' Hname. by destruct (Hsel m' Hm' Hname).
Qed.

(** X3: for a receiver whose exported methods have distinct names,
    registered under a name the server does not hold yet (the name
    given or, when that is empty, the name of the receiver's element
    type), RegisterName answers nil and stores a service under that
    name.  In its table each named method of the receiver is bound to
    itself when it is exported with a conforming signature, and absent
    otherwise; the other services and the server's name are kept. *)
Theorem RegisterName_registers_conforming
    (server : Server) (name : string) (rcvr : Receiver) :
  let key := if (String.length name =? 0)%nat then indirect_Name rcvr else name in
  typ_Methods rcvr ≠ [] →
  NoDup (Name <$> typ_Methods rcvr) →
  Server_services server !! key = None →
  ∃ s, (Server.RegisterName server name rcvr).2 = nil
       ∧ Server_services (Server.RegisterName server name rcvr).1 !! key = Some s
       ∧ service_receiver s = rcvr_Value rcvr
       ∧ (∀ m, m ∈ typ_Methods rcvr → Name m ≠ "" →
               service_methods s !! Name m
               = if bool_decide (PkgPath m = "") && validMethodType (Type_ m)
                 then Some m else None)
       ∧ (∀ other, other ≠ key →
                   Server_services (Server.RegisterName server name rcvr).1 !! other
                   = Server_services server !! other)
       ∧ Server_name (Server.RegisterName server name rcvr).1 = Server_name server.
Proof.
  intros key Hne Hnd Hfree.
  rewrite (RegisterName_unfold _ _ _ Hne). fold key.
  unfold Server.addService. rewrite Hfree. simpl.
  eexists. split; [done|]. split; [apply lookup_insert_eq|].
  split; [done|]. split; [|split; [|done]].
  - intros m Hm Hname.
    by apply (registered_table_lookup
                {| service_name := ""; service_typ := typ_Name rcvr;
                   service_receiver := rcvr_Value rcvr; service_methods := ∅ |}).
  - intros other Hother. by rewrite lookup_insert_ne.
Qed.

Lemma RegisterName_registers_conforming_witness :
  ∃ s, (Server.RegisterName (newServer "server-0") "" Mixed).2 = nil
       ∧ Server_services (Server.RegisterName (newServer "server-0") "" Mixed).1
           !! "Mixed" = Some s
       ∧ service_methods s !! "Add" = Some Add_method
       ∧ service_methods s !! "Fail" = None
       ∧ service_methods s !! "Print" = None.
Proof.
  destruct (RegisterName_registers_conforming (newServer "server-0") "" Mixed)
    as (s & Herr & Hs & _ & Htable & _).
  - discriminate.
  - apply (bool_decide_unpack _). vm_compute. exact I.
  - reflexivity.
  - exists s. split; [exact Herr|]. split; [exact Hs|].
    split; [|split].
    + apply (Htable Add_method); [set_solver | discriminate].
    + apply (Htable Fail_method); [set_solver | discriminate].
    + apply (Htable Print_method); [set_solver | discriminate].
Defined.

(** X4: a service name can be registered once.  When the name (given,
    or derived from the receiver) is taken, RegisterName fails with the
    "service already defined" error naming it and the server is left as
    it was; so registering again after a success fails that way. *)
Theorem RegisterName_duplicate (server : Server) (name : string) (rcvr rcvr' : Receiver) :
  let key := if (String.length name =? 0)%nat then indirect_Name rcvr else name in
  let key' := if (String.length name =? 0)%nat then indirect_Name rcvr' else name in
  typ_Methods rcvr ≠ [] →
  typ_Methods rcvr' ≠ [] →
  (is_Some (Server_services server !! key) →
   Server.RegisterName server name rcvr
   = (server, Some ("rpc: service already defined: " +:+ key)))
  ∧ (Server_services server !! key = None →
     key' = key →
     let registered := (Server.RegisterName server name rcvr).1 in
     Server.RegisterName registered name rcvr'
     = (registered, Some ("rpc: service already defined: " +:+ key))).
Proof.
  intros key key' Hne Hne'. split.
  - intros [s Hs]. rewrite (RegisterName_unfold _ _ _ Hne). fold key.
    unfold Server.addService. by rewrite Hs.
  - intros Hfree Hkey registered. subst registered.
    rewrite (RegisterName_unfold _ _ _ Hne').
    rewrite (RegisterName_unfold _ _ _ Hne). fold key key'. rewrite Hkey.
    unfold Server.addService. rewrite !Hfree. simpl.
    by rewrite lookup_insert_eq.
Qed.

Lemma RegisterName_duplicate_witness :
  Server.RegisterName (Server.RegisterName (newServer "server-0") "" Arith).1 "" Arith
  = ((Server.RegisterName (newServer "server-0") "" Arith).1,
     Some "rpc: service already defined: Arith")
  ∧ Server.RegisterName (objects net_arith 0) "Arith" Mixed
    = (objects net_arith 0, Some "rpc: service already defined: Arith").
Proof.
  split.
  - apply (proj2 (RegisterName_duplicate (newServer "server-0") "" Arith Arith
                    ltac:(discriminate) ltac:(discriminate)));
      reflexivity.
  - apply (proj1 (RegisterName_duplicate (objects net_arith 0) "Arith" Mixed Mixed
                    ltac:(discriminate) ltac:(discriminate))).
    vm_compute. eauto.
Defined.

(** * Further properties of the fault-injection pipeline *)

(** ** Composing effects *)

Lemma effects_refl (env : Env) : effects env env [] 0.
Proof.
  unfold effects. rewrite Nat.add_0_r, app_nil_r. done.
Qed.

Lemma effects_trans (env1 env2 env3 : Env) (evs evs' : list event) (k k' : nat) :
  effects env1 env2 evs k → effects env2 env3 evs' k' →
  effects env1 env3 (evs ++ evs') (k + k').
Proof.
  intros (Hr & Hp & Hc & Ht & Hm) (Hr' & Hp' & Hc' & Ht' & Hm').
  unfold effects. split; [congruence|]. split; [congruence|].
  split; [lia|]. split; [by rewrite Ht', Ht, app_assoc|].
  rewrite List.filter_app. intros H. apply app_eq_nil in H as [H1 H2].
  rewrite Hm', Hm; done.
Qed.

Lemma effects_advance (env : Env) : effects env (advance env) [] 1.
Proof.
  unfold effects. simpl. rewrite app_nil_r. repeat split; lia.
Qed.

Lemma effects_sleep (env : Env) (ms : Z) : effects env (log (ESleep ms) env) [ESleep ms] 0.
Proof. unfold effects. simpl. repeat split; lia. Qed.

(** ** math/rand *)

Lemma land_upper (v m : Z) : (0 ≤ m → Z.land v m ≤ m)%Z.
Proof.
  intros Hm.
  assert (H : m = (Z.land v m + Z.ldiff m v)%Z).
  { rewrite Z.add_nocarry_lxor, Z.lxor_lor.
    - apply Z.bits_inj'. intros k Hk.
      rewrite Z.lor_spec, Z.land_spec, Z.ldiff_spec.
      by destruct (Z.testbit v k), (Z.testbit m k).
    - apply Z.bits_inj'. intros k Hk.
      rewrite Z.land_spec, Z.land_spec, Z.ldiff_spec, Z.bits_0.
      by destruct (Z.testbit v k), (Z.testbit m k).
    - apply Z.bits_inj'. intros k Hk.
      rewrite Z.land_spec, Z.land_spec, Z.ldiff_spec, Z.bits_0.
      by destruct (Z.testbit v k), (Z.testbit m k). }
  assert (0 ≤ Z.ldiff m v)%Z by (apply Z.ldiff_nonneg; auto).
  lia.
Qed.

Section rejection_loop.
Variable draw : M Z.
Hypothesis draw_run :
  ∀ env, ∃ v, draw env = (Ret v, advance env) ∧ (0 ≤ v)%Z.

(** The loop ends with an accepted value, or gives up after [budget]
    redraws; it touches the cursor only. *)
Lemma redraw_spec (budget : nat) (max : Z) :
  ∀ (v : Z) (env : Env),
    (0 ≤ v)%Z →
    ∃ o env' k,
      redraw budget draw max v env = (o, env')
      ∧ effects env env' [] k ∧ (k ≤ budget)%nat
      ∧ match o with
        | Ret v' => (0 ≤ v' ≤ max)%Z
        | Panic _ => False
        | Hang => k = budget
        end.
Proof.
  induction budget as [|budget IH]; intros v env Hv; simpl.
  - destruct (Z.gtb_spec v max).
    + exists Hang, env, 0. split; [done|]. split; [apply effects_refl|]. done.
    + exists (Ret v), env, 0. split; [done|]. split; [apply effects_refl|].
      split; [done | lia].
  - destruct (Z.gtb_spec v max).
    + destruct (draw_run env) as (v' & Hdraw & Hv').
      rewrite (bind_Ret _ _ _ _ _ Hdraw).
      destruct (IH v' (advance env) Hv') as (o & env' & k & Hrun & Heff & Hk & Ho).
      exists o, env', (1 + k). split; [done|].
      split; [apply (effects_trans env (advance env) env' [] [] 1 k); [apply effects_advance | done]|].
      split; [lia|]. destruct o; [done | done | lia].
    + exists (Ret v), env, 0. split; [done|]. split; [apply effects_refl|].
      split; [lia | lia].
Qed.

Lemma bounded_spec (bits n : Z) (env : Env) :
  (0 < n)%Z →
  ∃ o env' k,
    (if (Z.land n (n - 1) =? 0)%Z then
       let* v := draw in ret (Z.land v (n - 1))
     else
       let* v := draw in
       let* v := (λ env, redraw (patience env) draw (2 ^ bits - 1 - 2 ^ bits mod n) v env) in
       ret (Z.rem v n)) env = (o, env')
    ∧ effects env env' [] k ∧ (1 ≤ k ≤ S (patience env))%nat
    ∧ match o with
      | Ret v => (0 ≤ v < n)%Z
      | Panic _ => False
      | Hang => k = S (patience env)
      end.
Proof.
  intros Hn. destruct (draw_run env) as (v & Hdraw & Hv).
  destruct (Z.land n (n - 1) =? 0)%Z.
  - rewrite (bind_Ret _ _ _ _ _ Hdraw).
    exists (Ret (Z.land v (n - 1))), (advance env), 1.
    split; [done|]. split; [apply effects_advance|]. split; [lia|].
    pose proof (land_upper v (n - 1)).
    assert (0 ≤ Z.land v (n - 1))%Z by (apply Z.land_nonneg; lia). lia.
  - rewrite (bind_Ret _ _ _ _ _ Hdraw).
    destruct (redraw_spec (patience (advance env)) (2 ^ bits - 1 - 2 ^ bits mod n)
                v (advance env) Hv)
      as (o & env' & k & Hrun & Heff & Hk & Ho).
    destruct o as [v'| |].
    + exists (Ret (Z.rem v' n)), env', (1 + k).
      split; [unfold bind; by rewrite Hrun|].
      split; [apply (effects_trans env (advance env) env' [] [] 1 k); [apply effects_advance | done]|].
      simpl in Hk. split; [lia|]. apply rem_range; lia.
    + done.
    + exists Hang, env', (1 + k). split; [unfold bind; by rewrite Hrun|].
      split; [apply (effects_trans env (advance env) env' [] [] 1 k); [apply effects_advance | done]|].
      simpl in Hk. split; [lia|]. simpl in Ho. lia.
Qed.

End rejection_loop.

Lemma rand_Int31_run (env : Env) :
  ∃ v, rand_Int31 env = (Ret v, advance env) ∧ (0 ≤ v)%Z.
Proof.
  eexists. split; [reflexivity|]. apply Z.shiftr_nonneg, next_draw_nonneg.
Qed.

Lemma rand_Int63_run (env : Env) :
  ∃ v, rand_Int63 env = (Ret v, advance env) ∧ (0 ≤ v)%Z.
Proof. eexists. split; [reflexivity|]. apply next_draw_nonneg. Qed.

(** rand.Intn(n) for 0 < n: a value of [0,n) after at least one draw,
    unless a rejection loop outlasts the patience. *)
Lemma rand_Intn_spec (n : Z) (env : Env) :
  (0 < n)%Z →
  ∃ o env' k,
    rand_Intn n env = (o, env')
    ∧ effects env env' [] k ∧ (1 ≤ k ≤ S (patience env))%nat
    ∧ match o with
      | Ret v => (0 ≤ v < n)%Z
      | Panic _ => False
      | Hang => k = S (patience env)
      end.
Proof.
  intros Hn. unfold rand_Intn, rand_Int31n, rand_Int63n.
  destruct (Z.leb_spec n 0); [lia|].
  destruct (n <=? 2 ^ 31 - 1)%Z.
  - by apply (bounded_spec rand_Int31 rand_Int31_run 31).
  - by apply (bounded_spec rand_Int63 rand_Int63_run 63).
Qed.

Lemma responseDelay_spec (env : Env) :
  ∃ o env' k,
    Network.responseDelay env = (o, env')
    ∧ effects env env' [] k ∧ (k ≤ 2 * S (patience env))%nat
    ∧ match o with
      | Ret d => (200 ≤ d < 2200)%Z ∧ (2 ≤ k)%nat
      | Panic _ => False
      | Hang => (S (patience env) ≤ k)%nat
      end.
Proof.
  unfold Network.responseDelay.
  destruct (rand_Intn_spec 2000 env) as (o1 & env1 & k1 & Hrun1 & Heff1 & Hk1 & Ho1);
    [lia|].
  destruct o1 as [v1| |]; [|done|].
  - rewrite (bind_Ret _ _ _ _ _ Hrun1).
    destruct (rand_Intn_spec (1 + v1) env1)
      as (o2 & env2 & k2 & Hrun2 & Heff2 & Hk2 & Ho2); [lia|].
    assert (Hp : patience env1 = patience env) by apply Heff1.
    rewrite Hp in Hk2, Ho2.
    pose proof (effects_trans _ _ _ _ _ _ _ Heff1 Heff2) as Heff.
    destruct o2 as [v2| |]; [|done|].
    + rewrite (bind_Ret _ _ _ _ _ Hrun2).
      exists (Ret (200 + v2)%Z), env2, (k1 + k2). split; [done|].
      split; [done|]. split; [lia|]. lia.
    + exists Hang, env2, (k1 + k2). split; [unfold bind; by rewrite Hrun2|].
      split; [done|]. split; [lia|]. lia.
  - exists Hang, env1, k1. split; [unfold bind; by rewrite Hrun1|].
    split; [done|]. split; [lia|]. lia.
Qed.

Lemma redraw_accept (budget : nat) (draw : M Z) (max v : Z) (env : Env) :
  (v ≤ max)%Z → redraw budget draw max v env = (Ret v, env).
Proof.
  intros H. destruct budget; simpl; by destruct (Z.gtb_spec v max); [lia|].
Qed.

(** Int31n when the first draw is not rejected: one draw. *)
Lemma rand_Int31n_accept (n : Z) (env : Env) :
  (0 < n)%Z →
  (Z.land n (n - 1) = 0
   ∨ Z.shiftr (next_draw env) 32 ≤ 2 ^ 31 - 1 - 2 ^ 31 mod n)%Z →
  rand_Int31n n env
  = (Ret (if (Z.land n (n - 1) =? 0)%Z
          then Z.land (Z.shiftr (next_draw env) 32) (n - 1)
          else Z.rem (Z.shiftr (next_draw env) 32) n),
     advance env).
Proof.
  intros Hn Hacc. unfold rand_Int31n.
  destruct (Z.leb_spec n 0); [lia|].
  destruct (Z.eqb_spec (Z.land n (n - 1)) 0) as [Hp|Hp]; [done|].
  destruct Hacc as [Hacc|Hacc]; [done|].
  unfold bind, rand_Int31. by rewrite redraw_accept.
Qed.

Lemma rand_Intn_small (n : Z) (env : Env) :
  (0 < n ≤ 2 ^ 31 - 1)%Z → rand_Intn n env = rand_Int31n n env.
Proof.
  intros Hn. unfold rand_Intn.
  destruct (Z.leb_spec n 0); [lia|]. by destruct (Z.leb_spec n (2 ^ 31 - 1)); [|lia].
Qed.

(** X5: responseDelay never panics and touches nothing but the cursor
    of the source.  When it returns, the delay is at least 200 and less
    than 2200 milliseconds and at least two values were drawn; it draws
    at most twice the patience plus two values, and gives up only after
    a rejection loop outlasted the patience.  When neither Intn rejects
    its first value it draws exactly two: with v1 and v2 the top 31
    bits of the two values, the delay is 200 + v2 reduced into
    1 + v1 mod 2000. *)
Theorem responseDelay_range (env : Env) :
  let v1 := Z.shiftr (next_draw env) 32 in
  let v2 := Z.shiftr (next_draw (advance env)) 32 in
  let n2 := (1 + Z.rem v1 2000)%Z in
  (∃ o env' k,
     Network.responseDelay env = (o, env')
     ∧ effects env env' [] k ∧ (k ≤ 2 * S (patience env))%nat
     ∧ match o with
       | Ret d => (200 ≤ d < 2200)%Z ∧ (2 ≤ k)%nat
       | Panic _ => False
       | Hang => (S (patience env) ≤ k)%nat
       end)
  ∧ ((v1 ≤ 2 ^ 31 - 1 - 2 ^ 31 mod 2000)%Z →
     (Z.land n2 (n2 - 1) = 0 ∨ v2 ≤ 2 ^ 31 - 1 - 2 ^ 31 mod n2)%Z →
     Network.responseDelay env
     = (Ret (200 + (if (Z.land n2 (n2 - 1) =? 0)%Z
                    then Z.land v2 (n2 - 1) else Z.rem v2 n2))%Z,
        advance (advance env))).
Proof.
  intros v1 v2 n2. split; [apply responseDelay_spec|].
  intros H1 H2. unfold Network.responseDelay.
  assert (Hv1 : (0 ≤ v1)%Z) by apply Z.shiftr_nonneg, next_draw_nonneg.
  assert (Hk : (0 ≤ Z.rem v1 2000 < 2000)%Z) by (apply rem_range; lia).
  assert (Hrun1 : rand_Intn 2000 env = (Ret (Z.rem v1 2000), advance env)).
  { rewrite rand_Intn_small by done. rewrite rand_Int31n_accept; [done|lia|by right]. }
  rewrite (bind_Ret _ _ _ _ _ Hrun1).
  assert (Hrun2 : rand_Intn n2 (advance env)
                  = (Ret (if (Z.land n2 (n2 - 1) =? 0)%Z
                          then Z.land v2 (n2 - 1) else Z.rem v2 n2),
                     advance (advance env))).
  { rewrite rand_Intn_small by (subst n2; simpl; lia).
    rewrite rand_Int31n_accept; [done|subst n2; lia|done]. }
  by rewrite (bind_Ret _ _ _ _ _ Hrun2).
Qed.

Lemma responseDelay_range_witness :
  Network.responseDelay env0 = (Ret 200%Z, advance (advance env0)).
Proof.
  apply (proj2 (responseDelay_range env0)).
  - vm_compute. discriminate.
  - left. reflexivity.
Defined.

Lemma responseDelay_sleep_spec (env : Env) :
  ∃ o env' evs k,
    (let* d := Network.responseDelay in time_Sleep d) env = (o, env')
    ∧ effects env env' evs k ∧ (k ≤ 2 * S (patience env))%nat
    ∧ match o with
      | Ret _ => ∃ d, evs = [ESleep d] ∧ (200 ≤ d < 2200)%Z ∧ (2 ≤ k)%nat
      | Panic _ => False
      | Hang => evs = []
      end.
Proof.
  destruct (responseDelay_spec env) as (o & env' & k & Hrun & Heff & Hk & Ho).
  destruct o as [d| |]; [|done|].
  - rewrite (bind_Ret _ _ _ _ _ Hrun).
    exists (Ret ()), (log (ESleep d) env'), [ESleep d], k. split; [done|].
    split; [|split; [done|]].
    + replace k with (k + 0) by lia.
      apply (effects_trans env env' _ [] [ESleep d]); [done | apply effects_sleep].
    + exists d. by destruct Ho.
  - exists Hang, env', [], k. split; [by rewrite (bind_Hang _ _ _ _ Hrun)|]. done.
Qed.

(** ** The pipeline *)

(** A dispatch on a server draws nothing, never gives up, and appends
    nothing, with the memory as it was, or the one call. *)
Lemma Server_dispatch_summary (server : Server) (service method : string)
    (args reply : value) (env env' : Env) (o : outcome error) :
  Server.dispatch server service method args reply env = (o, env') →
  o ≠ Hang
  ∧ ∃ evs, effects env env' evs 0
           ∧ (evs = [] ∨ ∃ name ins, evs = [ECall name ins]).
Proof.
  unfold Server.dispatch, Server.getService.
  destruct (Server_services server !! service) as [s|];
    [|intros [= <- <-]; split; [done|]; exists []; split;
      [apply effects_refl | by left]].
  unfold service.dispatch, service.getMethod.
  destruct (service_methods s !! method) as [m|];
    [|intros [= <- <-]; split; [done|]; exists []; split;
      [apply effects_refl | by left]].
  unfold Method_Call. destruct (Func m) as [f|];
    [|intros [= <- <-]; split; [done|]; exists []; split;
      [apply effects_refl | by left]].
  unfold bind, emit, invoke, ret. simpl.
  destruct (f _ _) as [[mem' outs]|]; intros [= <- <-]; (split; [done|]);
    eexists [ECall _ _]; (split; [|right; eauto]);
    unfold effects; simpl; repeat split; try lia; discriminate.
Qed.

Lemma msgLost_run (env : Env) :
  Network.msgLost env = (Ret (Network.msgLost_of (next_draw env)), advance env).
Proof. reflexivity. Qed.

Lemma jitter_run (env : Env) :
  (let* r := rand_Int in time_Sleep (Z.rem r shortDelay)) env
  = (Ret (), log (ESleep (Z.rem (next_draw env) shortDelay)) (advance env)).
Proof. reflexivity. Qed.

Lemma jitter_bounds (env : Env) :
  (0 ≤ Z.rem (next_draw env) shortDelay < longTimeout)%Z.
Proof.
  pose proof (rem_range (next_draw env) shortDelay (next_draw_nonneg env)) as Hj.
  unfold shortDelay, longTimeout in *. lia.
Qed.

Lemma dispatch_reliable (n : Network) (serverName clientName service method : string)
    (server : nat) (args reply : value) (env : Env) :
  default false (enabled n !! clientName) = true →
  servers n !! serverName = Some server →
  reliable n = true →
  longReorder n = false →
  Network.dispatch n serverName clientName service method args reply env
  = Server.dispatch (objects n server) service method args reply env.
Proof.
  intros Hen Hsrv Hrel Hre.
  rewrite (dispatch_proceeds n serverName clientName service method server) by done.
  rewrite Hrel, Hre. simpl. unfold bind at 1 2. simpl. unfold bind.
  by destruct (Server.dispatch _ _ _ _ _ env) as [[err|msg|] env'].
Qed.

(** X6: on a reliable fabric without reordering, a call of an enabled
    client to a live server is the server's dispatch and nothing else:
    no draw, no sleep, the same result and environment. *)
Theorem dispatch_reliable_transparent
    (n : Network) (serverName clientName service method : string) (server : nat)
    (args reply : value) (env : Env) :
  default false (enabled n !! clientName) = true →
  servers n !! serverName = Some server →
  reliable n = true →
  longReorder n = false →
  Network.dispatch n serverName clientName service method args reply env
  = Server.dispatch (objects n server) service method args reply env.
Proof. apply dispatch_reliable. Qed.

Lemma dispatch_reliable_transparent_witness :
  Network.dispatch net_dialled "server-0" "client-0" "Arith" "Add" (VPtr 1) (VPtr 2) env0
  = Server.dispatch (objects net_dialled 0) "Arith" "Add" (VPtr 1) (VPtr 2) env0.
Proof.
  apply (dispatch_reliable_transparent net_dialled
           "server-0" "client-0" "Arith" "Add" 0); reflexivity.
Defined.

(** X7: with longReorder set on a reliable fabric, for an enabled
    client of a live server, the server's dispatch runs first; when
    responseDelay then returns, the result of the dispatch comes back
    unchanged after one sleep of 200 to 2199 milliseconds and at least
    two draws; when a redraw loop outlasts the patience the call is
    given up after the method ran; a panic of the method passes
    through, without draw or sleep. *)
Theorem dispatch_reorder_delays_reply
    (n : Network) (serverName clientName service method : string) (server : nat)
    (args reply : value) (env env2 : Env) (o : outcome error) :
  default false (enabled n !! clientName) = true →
  servers n !! serverName = Some server →
  reliable n = true →
  longReorder n = true →
  Server.dispatch (objects n server) service method args reply env = (o, env2) →
  match o with
  | Ret err =>
      (∀ d env3,
         Network.responseDelay env2 = (Ret d, env3) →
         Network.dispatch n serverName clientName service method args reply env
         = (Ret err, log (ESleep d) env3)
         ∧ (200 ≤ d < 2200)%Z ∧ (cursor env2 + 2 ≤ cursor env3)%nat)
      ∧ (∀ env3,
           Network.responseDelay env2 = (Hang, env3) →
           Network.dispatch n serverName clientName service method args reply env
           = (Hang, env3))
  | Panic msg =>
      Network.dispatch n serverName clientName service method args reply env
      = (Panic msg, env2)
  | Hang => False
  end.
Proof.
  intros Hen Hsrv Hrel Hre Hdisp.
  rewrite (dispatch_proceeds n serverName clientName service method server) by done.
  rewrite Hrel, Hre. cbn [negb]. rewrite !bind_ret_l.
  destruct o as [err|msg|].
  - rewrite (bind_Ret _ _ _ _ _ Hdisp), bind_ret_l. split.
    + intros d env3 Hdelay.
      destruct (responseDelay_spec env2) as (o' & env' & k & Hrun & Heff & Hk & Ho).
      rewrite Hdelay in Hrun. injection Hrun as <- <-.
      split; [|split; [apply Ho|]].
      * unfold bind at 1. unfold bind at 1. by rewrite Hdelay.
      * destruct Heff as (_ & _ & Hc & _). lia.
    + intros env3 Hdelay. unfold bind at 1. unfold bind at 1. by rewrite Hdelay.
  - by rewrite (bind_Panic _ _ _ _ _ Hdisp).
  - by destruct (Server_dispatch_summary _ _ _ _ _ _ _ _ Hdisp) as [? _].
Qed.

Lemma dispatch_reorder_delays_reply_witness :
  Network.dispatch (apply_op net_dialled (OpSetLongReorder true))
    "server-0" "client-0" "Arith" "Add" (VPtr 1) (VPtr 2) env0
  = (Ret nil,
     log (ESleep 200)
       (advance (advance
          (with_mem (log (ECall "Add" [VPtr 0; VPtr 1; VPtr 2]) env0)
                    (<[2 := VInt 5]> (mem env0))))))
  ∧ (200 ≤ 200 < 2200)%Z.
Proof.
  pose proof (dispatch_reorder_delays_reply
                (apply_op net_dialled (OpSetLongReorder true))
                "server-0" "client-0" "Arith" "Add" 0 (VPtr 1) (VPtr 2) env0
                (with_mem (log (ECall "Add" [VPtr 0; VPtr 1; VPtr 2]) env0)
                          (<[2 := VInt 5]> (mem env0)))
                (Ret nil) eq_refl eq_refl eq_refl eq_refl) as H.
  destruct H as [H _]; [vm_compute; reflexivity|].
  destruct (H 200%Z
              (advance (advance
                 (with_mem (log (ECall "Add" [VPtr 0; VPtr 1; VPtr 2]) env0)
                           (<[2 := VInt 5]> (mem env0))))))
    as (Hcall & Hd & _); [vm_compute; reflexivity|].
  split; [exact Hcall | exact Hd].
Defined.

Lemma calls_app (evs evs' : list event) :
  length (List.filter is_call (evs ++ evs'))
  = length (List.filter is_call evs) + length (List.filter is_call evs').
Proof. by rewrite List.filter_app, length_app. Qed.

(** Every way a call can go through the pipeline, with what it leaves
    in the environment. *)
Lemma dispatch_anatomy
    (n : Network) (serverName clientName service method : string)
    (args reply : value) (env : Env) :
  ∃ (o : outcome error) (env' : Env) (evs : list event) (k : nat),
    Network.dispatch n serverName clientName service method args reply env = (o, env')
    ∧ effects env env' evs k
    ∧ (k ≤ 3 + (if longReorder n then 2 * S (patience env) else 0))%nat
    ∧ (length (List.filter is_call evs) ≤ 1)%nat
    ∧ Forall (λ e, match e with
                   | ESleep ms => (0 ≤ ms < longTimeout)%Z
                   | ECall _ _ => True
                   end) evs
    ∧ match o with
      | Ret e =>
          e = timeoutErr
          ∨ ∃ server env1 env2,
              servers n !! serverName = Some server
              ∧ Server.dispatch (objects n server) service method args reply env1
                = (Ret e, env2)
      | Panic msg =>
          ∃ server env1,
            servers n !! serverName = Some server
            ∧ Server.dispatch (objects n server) service method args reply env1
              = (Panic msg, env')
      | Hang =>
          longReorder n = true
          ∧ ∃ server env1 env2 e,
              servers n !! serverName = Some server
              ∧ Server.dispatch (objects n server) service method args reply env1
                = (Ret e, env2)
      end.
Proof.
  set (sleep_ok := λ e, match e with
                        | ESleep ms => (0 ≤ ms < longTimeout)%Z
                        | ECall _ _ => True
                        end).
  assert (Hdelay_ok : ∀ d, (200 ≤ d < 2200)%Z → sleep_ok (ESleep d)).
  { intros d Hd. unfold sleep_ok, longTimeout. lia. }
  assert (Hcalls_ok : ∀ evs, evs = [] ∨ (∃ name ins, evs = [ECall name ins]) →
                             (length (List.filter is_call evs) ≤ 1)%nat
                             ∧ Forall sleep_ok evs).
  { intros evs [-> | (name & ins & ->)]; simpl; split; try lia; by repeat constructor. }
  destruct (default false (enabled n !! clientName)) eqn:Hen;
    [destruct (servers n !! serverName) as [server|] eqn:Hsrv|].
  2,3: (eexists _, _, ([] ++ [ESleep _])%list, (1 + 0);
        split; [apply dispatch_no_reply; by auto|];
        split; [eapply effects_trans; [apply effects_advance | apply effects_sleep]|];
        split; [lia|]; split; [simpl; lia|]; split; [|by left];
        repeat constructor;
        pose proof (rem_range (next_draw env) longTimeout (next_draw_nonneg env));
        pose proof (rem_range (next_draw env) shortTimeout (next_draw_nonneg env));
        unfold longTimeout, shortTimeout in *; destruct (longDelay n); lia).
  rewrite (dispatch_proceeds n serverName clientName service method server) by done.
  destruct (reliable n); cbn [negb].
  - rewrite !bind_ret_l.
    destruct (Server.dispatch (objects n server) service method args reply env)
      as [o env2] eqn:Hd.
    destruct (Server_dispatch_summary _ _ _ _ _ _ _ _ Hd)
      as (Hnh & evs & Heff & Hevs).
    destruct (Hcalls_ok evs Hevs) as [Hcalls Hsleeps].
    destruct o as [err|msg|]; [| |done].
    + rewrite (bind_Ret _ _ _ _ _ Hd), bind_ret_l.
      destruct (longReorder n).
      * destruct (responseDelay_sleep_spec env2)
          as (o' & env3 & evs' & k' & Hrun & Heff' & Hk' & Ho').
        assert (Hp : patience env2 = patience env) by apply Heff.
        rewrite Hp in Hk'.
        pose proof (effects_trans _ _ _ _ _ _ _ Heff Heff') as Heff3.
        destruct o' as [[]|msg|]; [| done |].
        -- rewrite (bind_Ret _ _ _ _ _ Hrun).
           destruct Ho' as (d & -> & Hd' & _).
           exists (Ret err), env3, (evs ++ [ESleep d])%list, (0 + k').
           split; [done|]. split; [done|]. split; [lia|].
           split; [rewrite calls_app; simpl; lia|].
           split; [apply Forall_app; split; [done | constructor; [by apply Hdelay_ok | constructor]]|].
           right. eauto.
        -- rewrite (bind_Hang _ _ _ _ Hrun). subst evs'.
           exists Hang, env3, (evs ++ [])%list, (0 + k').
           split; [done|]. split; [done|]. split; [lia|].
           split; [rewrite calls_app; simpl; lia|].
           split; [by rewrite app_nil_r|]. split; [done|]. eauto 10.
      * rewrite bind_ret_l. exists (Ret err), env2, evs, 0.
        split; [done|]. split; [done|]. split; [lia|].
        split; [done|]. split; [done|]. right. eauto.
    + rewrite (bind_Panic _ _ _ _ _ Hd). exists (Panic msg), env2, evs, 0.
      split; [done|]. split; [done|]. split; [lia|].
      split; [done|]. split; [done|]. eauto.
  - rewrite (bind_Ret _ _ _ _ _ (msgLost_run env)).
    destruct (Network.msgLost_of (next_draw env)).
    { exists (Ret timeoutErr), (advance env), [], 1.
      split; [done|]. split; [apply effects_advance|]. split; [lia|].
      split; [simpl; lia|]. split; [constructor | by left]. }
    rewrite (bind_Ret _ _ _ _ _ (jitter_run (advance env))).
    set (j := Z.rem (next_draw (advance env)) shortDelay).
    set (env1 := log (ESleep j) (advance (advance env))).
    assert (Heff1 : effects env env1 [ESleep j] 2).
    { apply (effects_trans env (advance env) env1 [] [ESleep j] 1 1);
        [apply effects_advance|].
      apply (effects_trans (advance env) (advance (advance env)) env1 [] [ESleep j] 1 0);
        [apply effects_advance | apply effects_sleep]. }
    assert (Hj : sleep_ok (ESleep j)) by apply jitter_bounds.
    destruct (Server.dispatch (objects n server) service method args reply env1)
      as [o env2] eqn:Hd.
    destruct (Server_dispatch_summary _ _ _ _ _ _ _ _ Hd)
      as (Hnh & evs & Heff & Hevs).
    destruct (Hcalls_ok evs Hevs) as [Hcalls Hsleeps].
    pose proof (effects_trans _ _ _ _ _ _ _ Heff1 Heff) as Heff2.
    assert (Hsl2 : Forall sleep_ok ([ESleep j] ++ evs)).
    { apply Forall_app. split; [constructor; [exact Hj | constructor] | done]. }
    assert (Hc2 : (length (List.filter is_call ([ESleep j] ++ evs)) ≤ 1)%nat).
    { rewrite calls_app. simpl. lia. }
    destruct o as [err|msg|]; [| |done].
    + rewrite (bind_Ret _ _ _ _ _ Hd).
      rewrite (bind_Ret _ _ _ _ _ (msgLost_run env2)).
      pose proof (effects_trans _ _ _ _ _ _ _ Heff2 (effects_advance env2)) as Heff3.
      rewrite app_nil_r in Heff3.
      destruct (Network.msgLost_of (next_draw env2)).
      { exists (Ret timeoutErr), (advance env2), ([ESleep j] ++ evs)%list, (2 + 0 + 1).
        split; [done|]. split; [done|]. split; [lia|].
        split; [done|]. split; [done|]. by left. }
      destruct (longReorder n).
      * destruct (responseDelay_sleep_spec (advance env2))
          as (o' & env3 & evs' & k' & Hrun & Heff' & Hk' & Ho').
        assert (Hp : patience (advance env2) = patience env) by apply Heff3.
        rewrite Hp in Hk'.
        pose proof (effects_trans _ _ _ _ _ _ _ Heff3 Heff') as Heff4.
        destruct o' as [[]|msg|]; [| done |].
        -- rewrite (bind_Ret _ _ _ _ _ Hrun).
           destruct Ho' as (d & -> & Hd' & _).
           exists (Ret err), env3, (([ESleep j] ++ evs) ++ [ESleep d])%list,
             (2 + 0 + 1 + k').
           split; [done|]. split; [done|]. split; [lia|].
           split; [rewrite calls_app; simpl length; lia|].
           split; [apply Forall_app; split;
                   [done | constructor; [by apply Hdelay_ok | constructor]]|].
           right. eauto.
        -- rewrite (bind_Hang _ _ _ _ Hrun). subst evs'.
           exists Hang, env3, (([ESleep j] ++ evs) ++ [])%list, (2 + 0 + 1 + k').
           split; [done|]. split; [done|]. split; [lia|].
           split; [rewrite calls_app; simpl length; lia|].
           split; [by rewrite app_nil_r|]. split; [done|]. eauto 10.
      * rewrite bind_ret_l.
        exists (Ret err), (advance env2), ([ESleep j] ++ evs)%list, (2 + 0 + 1).
        split; [done|]. split; [done|]. split; [lia|].
        split; [done|]. split; [done|]. right. eauto.
    + rewrite (bind_Panic _ _ _ _ _ Hd).
      exists (Panic msg), env2, ([ESleep j] ++ evs)%list, (2 + 0).
      split; [done|]. split; [done|]. split; [lia|].
      split; [done|]. split; [done|]. eauto.
Qed.

(** X8: whatever the flags and the draws, the fabric adds one error of
    its own to a call, the timeout error: a result that is not the
    timeout error is what the dispatch of the live destination server
    returned, and a panic is a panic of that dispatch.  A call is given
    up only with longReorder set, in the redraw loop of the delay, after
    that dispatch returned. *)
Theorem dispatch_result_is_timeout_or_servers
    (n : Network) (serverName clientName service method : string)
    (args reply : value) (env : Env) :
  match Network.dispatch n serverName clientName service method args reply env with
  | (Ret e, _) =>
      e = timeoutErr
      ∨ ∃ server env1 env2,
          servers n !! serverName = Some server
          ∧ Server.dispatch (objects n server) service method args reply env1
            = (Ret e, env2)
  | (Panic msg, env') =>
      ∃ server env1,
        servers n !! serverName = Some server
        ∧ Server.dispatch (objects n server) service method args reply env1
          = (Panic msg, env')
  | (Hang, _) =>
      longReorder n = true
      ∧ ∃ server env1 env2 e,
          servers n !! serverName = Some server
          ∧ Server.dispatch (objects n server) service method args reply env1
            = (Ret e, env2)
  end.
Proof.
  destruct (dispatch_anatomy n serverName clientName service method args reply env)
    as (o & env' & evs & k & -> & _ & _ & _ & _ & H).
  by destruct o.
Qed.

(** X9: one call through the fabric invokes at most one method, sleeps
    only for durations of at least 0 and less than 7000 milliseconds,
    only appends to the trace, leaves the memory as it was when it
    invoked nothing, and consumes at most three draws, to which
    longReorder adds at most two for each redraw granted and two. *)
Theorem dispatch_invokes_at_most_once
    (n : Network) (serverName clientName service method : string)
    (args reply : value) (env : Env) :
  let env' :=
    (Network.dispatch n serverName clientName service method args reply env).2 in
  rng env' = rng env
  ∧ (cursor env ≤ cursor env'
     ≤ cursor env + 3 + (if longReorder n then 2 * S (patience env) else 0))%nat
  ∧ ∃ evs, trace env' = (trace env ++ evs)%list
           ∧ (length (List.filter is_call evs) ≤ 1)%nat
           ∧ Forall (λ e, match e with
                          | ESleep ms => (0 ≤ ms < longTimeout)%Z
                          | ECall _ _ => True
                          end) evs
           ∧ (List.filter is_call evs = [] → mem env' = mem env).
Proof.
  destruct (dispatch_anatomy n serverName clientName service method args reply env)
    as (o & env' & evs & k & -> & (Hrng & _ & Hcur & Htrace & Hmem)
        & Hk & Hcalls & Hsleeps & _).
  cbn [snd]. split; [done|]. split; [destruct (longReorder n); lia|].
  by exists evs.
Qed.

(** * Further properties of the directories *)

(** X10: enabling or disabling one client changes nothing for the
    others: a call of any other client goes through the pipeline exactly
    as before; and for a name the fabric does not know the fabric is
    left as it is. *)
Theorem setClientEnable_isolated
    (n : Network) (name : string) (b : bool)
    (serverName other service method : string) (args reply : value) :
  (other ≠ name →
   Network.dispatch (Network.setClientEnable n name b)
     serverName other service method args reply
   = Network.dispatch n serverName other service method args reply)
  ∧ (clients n !! name = None → Network.setClientEnable n name b = n).
Proof.
  unfold Network.setClientEnable. split.
  - intros Hne. destruct (clients n !! name); [|done].
    unfold Network.dispatch, Network.networkCondition, Network.getServer. simpl.
    by rewrite lookup_insert_ne.
  - by intros ->.
Qed.

Lemma setClientEnable_isolated_witness :
  Network.dispatch (Network.DisableClient net_sample "client-1")
    "server-0" "client-0" "Arith" "Add" (VPtr 1) (VPtr 2)
  = Network.dispatch net_sample "server-0" "client-0" "Arith" "Add" (VPtr 1) (VPtr 2)
  ∧ Network.EnableClient net_sample "client-7" = net_sample.
Proof.
  split.
  - apply (proj1 (setClientEnable_isolated net_sample "client-1" false
                    "server-0" "client-0" "Arith" "Add" (VPtr 1) (VPtr 2))).
    discriminate.
  - apply (proj2 (setClientEnable_isolated net_sample "client-7" true
                    "server-0" "client-0" "Arith" "Add" (VPtr 1) (VPtr 2))).
    reflexivity.
Defined.

Lemma Dail_no_binding (n : Network) (network address : string) :
  addressMap n !! joinAddress network address = None →
  Network.Dail n network address
  = (n, Fail ("rpc: no server listens on " +:+ network +:+ "/" +:+ address)).
Proof.
  intros H. unfold Network.Dail, Network.getServerByAddress. by rewrite H.
Qed.

Lemma Dail_no_server (n : Network) (network address name : string) :
  addressMap n !! joinAddress network address = Some name →
  servers n !! name = None →
  Network.Dail n network address
  = (n, Fail ("rpc: no server listens on " +:+ network +:+ "/" +:+ address)).
Proof.
  intros Ha Hs. unfold Network.Dail, Network.getServerByAddress. by rewrite Ha, Hs.
Qed.

(** X11: Dail fails with the "no server listens" error, and leaves the
    fabric as it is, when the address is not bound or is bound to a name
    that is no longer in the servers directory.  RemoveServer does not
    unbind: after the owner of an address was removed the address stays
    taken, a registration of it by any server does nothing, and Dail to
    it keeps failing. *)
Theorem removed_server_address_stays_taken
    (n : Network) (server : nat) (network address claimant : string) :
  let refused :=
    Fail ("rpc: no server listens on " +:+ network +:+ "/" +:+ address) in
  (addressMap n !! joinAddress network address = None →
   Network.Dail n network address = (n, refused))
  ∧ (addressMap n !! joinAddress network address = Some (Server_name (objects n server)) →
     let n1 := Network.RemoveServer n server in
     Network.registerServer n1 claimant network address = n1
     ∧ Network.Dail n1 network address = (n1, refused)).
Proof.
  intros refused. split; [apply Dail_no_binding|].
  intros Ha n1. split.
  - by eapply registerServer_bound.
  - eapply Dail_no_server; [exact Ha|]. apply lookup_delete_eq.
Qed.

Lemma removed_server_address_stays_taken_witness :
  Network.Dail net_sample "test" "addr9"
  = (net_sample, Fail "rpc: no server listens on test/addr9")
  ∧ Network.registerServer (Network.RemoveServer net_sample 0) "server-1" "test" "addr1"
    = Network.RemoveServer net_sample 0
  ∧ Network.Dail (Network.RemoveServer net_sample 0) "test" "addr1"
    = (Network.RemoveServer net_sample 0, Fail "rpc: no server listens on test/addr1").
Proof.
  split.
  - apply (proj1 (removed_server_address_stays_taken net_sample 0 "test" "addr9" "")).
    reflexivity.
  - apply (proj2 (removed_server_address_stays_taken net_sample 0
                    "test" "addr1" "server-1")).
    reflexivity.
Defined.

Lemma createClient_fields (n : Network) (server : nat) :
  let name := generateName "client" (Z.of_nat (size (clients n))) in
  let n' := (Network.createClient n server).1 in
  (Network.createClient n server).2 = newClient name
  ∧ clients n' = <[name := newClient name]> (clients n)
  ∧ enabled n' = <[name := true]> (enabled n)
  ∧ connections n' = <[name := Server_name (objects n server)]> (connections n)
  ∧ servers n' = servers n ∧ objects n' = objects n ∧ allocated n' = allocated n
  ∧ addressMap n' = addressMap n
  ∧ reliable n' = reliable n ∧ longDelay n' = longDelay n
  ∧ longReorder n' = longReorder n.
Proof. by repeat split. Qed.

(** X12: accept, dial, call.  When a live server accepts on a free
    address, Dail to that address succeeds and hands out the client
    named client-k, k being the number of clients so far; on a reliable
    fabric without reordering a call of that client with the string
    service.method is the dispatch of service and method on that
    server. *)
Theorem Accept_Dail_Call
    (n : Network) (server : nat) (network address service method : string)
    (args reply : value) (env : Env) :
  servers n !! Server_name (objects n server) = Some server →
  addressMap n !! joinAddress network address = None →
  reliable n = true →
  longReorder n = false →
  count_sep "." service = 0 →
  count_sep "." method = 0 →
  let n1 := Server_Accept n server network address in
  ∃ n2 c,
    Network.Dail n1 network address = (n2, Ok c)
    ∧ Client_name c = generateName "client" (Z.of_nat (size (clients n)))
    ∧ Client.Call n2 c (service +:+ "." +:+ method) args reply env
      = Server.dispatch (objects n server) service method args reply env.
Proof.
  intros Hlive Hfree Hrel Hre Hs Hm n1. subst n1. unfold Server_Accept.
  set (n1 := Network.registerServer n _ _ _).
  assert (Hbound : addressMap n1 !! joinAddress network address
                   = Some (Server_name (objects n server)))
    by by apply registerServer_fresh.
  assert (Hsame : servers n1 = servers n ∧ objects n1 = objects n
                  ∧ clients n1 = clients n ∧ reliable n1 = reliable n
                  ∧ longReorder n1 = longReorder n).
  { subst n1. unfold Network.registerServer. by rewrite Hfree. }
  destruct Hsame as (Hsrv & Hobj & Hcl & Hr & Hl).
  unfold Network.Dail, Network.getServerByAddress.
  rewrite Hbound, Hsrv, Hlive.
  destruct (createClient_fields n1 server)
    as (Hc & _ & Hen & Hconn & Hsrv2 & Hobj2 & _ & _ & Hr2 & _ & Hl2).
  destruct (Network.createClient n1 server) as [n2 c]. simpl in *.
  exists n2, c. split; [done|]. split; [by rewrite Hc, Hcl|].
  unfold Client.Call, Network.call.
  rewrite parseServiceMethod_pair by done.
  rewrite Hconn, Hc. simpl. rewrite lookup_insert_eq, Hobj.
  rewrite (dispatch_reliable n2 _ _ service method server).
  - by rewrite Hobj2, Hobj.
  - by rewrite Hen, lookup_insert_eq.
  - by rewrite Hsrv2, Hsrv.
  - by rewrite Hr2, Hr.
  - by rewrite Hl2, Hl.
Qed.

Lemma Accept_Dail_Call_witness :
  ∃ n2 c,
    Network.Dail (Server_Accept net_arith 0 "test" "addr1") "test" "addr1" = (n2, Ok c)
    ∧ Client_name c = "client-0"
    ∧ Client.Call n2 c "Arith.Add" (VPtr 1) (VPtr 2) env0
      = Server.dispatch (objects net_arith 0) "Arith" "Add" (VPtr 1) (VPtr 2) env0.
Proof.
  apply (Accept_Dail_Call net_arith 0 "test" "addr1" "Arith" "Add"
           (VPtr 1) (VPtr 2) env0); reflexivity.
Defined.

(** ** Generated names and dense directories *)

Lemma generateName_inj (prefix : string) (i j : Z) :
  generateName prefix i = generateName prefix j → i = j.
Proof.
  unfold generateName. intros H.
  apply (inj (String.append prefix)) in H.
  apply (inj (String.append "-")) in H.
  by apply (inj pretty) in H.
Qed.

Section dense_directories.
Context {V : Type}.
Variable prefix : string.

Lemma dense_empty : dense prefix (∅ : gmap string V).
Proof.
  intros key. rewrite lookup_empty, map_size_empty. split.
  - by intros [? ?].
  - intros (k & Hk & _). lia.
Qed.

Lemma dense_fresh (m : gmap string V) :
  dense prefix m → m !! generateName prefix (Z.of_nat (size m)) = None.
Proof.
  intros Hd. apply eq_None_not_Some. intros Hsome.
  apply Hd in Hsome as (k & Hk & Heq).
  apply generateName_inj in Heq. lia.
Qed.

Lemma dense_insert (m : gmap string V) (v : V) :
  dense prefix m →
  dense prefix (<[generateName prefix (Z.of_nat (size m)) := v]> m).
Proof.
  intros Hd key.
  rewrite map_size_insert_None by by apply dense_fresh.
  rewrite lookup_insert_is_Some. split.
  - intros [<- | [_ Hsome]].
    + exists (size m). split; [lia | done].
    + apply Hd in Hsome as (k & Hk & ->). exists k. split; [lia | done].
  - intros (k & Hk & ->).
    destruct (decide (k = size m)) as [-> | Hne]; [by left|].
    right. split.
    + intros Heq. apply generateName_inj in Heq. lia.
    + apply Hd. exists k. split; [lia | done].
Qed.

End dense_directories.

(** ** The client directories along a run *)

Lemma coherent_same (n n' : Network) :
  clients n' = clients n → enabled n' = enabled n → connections n' = connections n →
  clients_coherent n → clients_coherent n'.
Proof.
  intros Hc He Hn [H1 H2 H3 H4].
  split; rewrite ?Hc, ?He, ?Hn; done.
Qed.

Lemma coherent_NewNetwork : clients_coherent NewNetwork.
Proof.
  split; simpl.
  - apply dense_empty.
  - intros name c. by rewrite lookup_empty.
  - intros name. by rewrite !lookup_empty.
  - intros name. by rewrite !lookup_empty.
Qed.

Lemma coherent_setClientEnable (n : Network) (name : string) (b : bool) :
  clients_coherent n → clients_coherent (Network.setClientEnable n name b).
Proof.
  intros [H1 H2 H3 H4]. unfold Network.setClientEnable.
  destruct (clients n !! name) as [c|] eqn:Hc; [|done].
  split; simpl; try done.
  intros key. rewrite lookup_insert_is_Some. split.
  - intros [<- | [_ H]]; [by rewrite Hc | by apply H3].
  - intros H. destruct (decide (name = key)); [by left|].
    right. split; [done | by apply H3].
Qed.

Lemma coherent_createClient (n : Network) (server : nat) :
  clients_coherent n → clients_coherent (Network.createClient n server).1.
Proof.
  intros [H1 H2 H3 H4]. unfold Network.createClient.
  split; simpl.
  - by apply dense_insert.
  - intros name c. rewrite lookup_insert.
    destruct (decide _) as [<-|]; [by intros [= <-] | apply H2].
  - intros name. rewrite !lookup_insert_is_Some. by rewrite H3.
  - intros name. rewrite !lookup_insert_is_Some. by rewrite H4.
Qed.

Lemma closeClient_coherent_id (n : Network) (name : string) :
  clients_coherent n → (Network.closeClient n name).1 = n.
Proof.
  intros [H1 H2 H3 H4]. unfold Network.closeClient.
  destruct (clients n !! name) as [c|] eqn:Hc; [done|]. simpl.
  assert (He : enabled n !! name = None).
  { apply eq_None_not_Some. rewrite H3, Hc. by intros [? ?]. }
  unfold with_clients, with_enabled. simpl.
  rewrite (delete_id _ _ He), (delete_id _ _ Hc). by destruct n.
Qed.

Lemma Dail_result (n : Network) (network address : string) :
  (Network.Dail n network address).1 = n
  ∨ ∃ server, (Network.Dail n network address).1 = (Network.createClient n server).1.
Proof.
  unfold Network.Dail.
  destruct (Network.getServerByAddress n network address) as [server|msg];
    [right; by exists server | by left].
Qed.

Lemma RegisterName_name (server : Server) (name : string) (rcvr : Receiver) :
  Server_name (Server.RegisterName server name rcvr).1 = Server_name server.
Proof.
  unfold Server.RegisterName. destruct (_ =? 0)%nat; [done|].
  unfold Server.addService. by destruct (_ !! _).
Qed.

Lemma coherent_apply_op (n : Network) (o : op) :
  clients_coherent n → clients_coherent (apply_op n o).
Proof.
  intros H. destruct o; simpl;
    try (by apply coherent_setClientEnable);
    try (by eapply coherent_same; [..|exact H]).
  - unfold Server_Accept, Network.registerServer.
    destruct (addressMap n !! _); [done|].
    by eapply coherent_same; [..|exact H].
  - unfold Server_RegisterName. destruct (Server.RegisterName _ _ _).
    by eapply coherent_same; [..|exact H].
  - destruct (Dail_result n network address) as [-> | [server ->]]; [done|].
    by apply coherent_createClient.
  - by rewrite closeClient_coherent_id.
Qed.

Lemma coherent_run (ops : list op) (n : Network) :
  clients_coherent n → clients_coherent (run n ops).
Proof.
  revert n. induction ops as [|o ops IH]; intros n H; [done|].
  simpl. apply IH. by apply coherent_apply_op.
Qed.

Lemma coherent_client_kept (n : Network) (o : op) (name : string) (c : Client) :
  clients_coherent n →
  clients n !! name = Some c → clients (apply_op n o) !! name = Some c.
Proof.
  intros H Hc. destruct o; simpl; try done.
  - unfold Network.EnableClient, Network.setClientEnable.
    by destruct (clients n !! name0).
  - unfold Network.DisableClient, Network.setClientEnable.
    by destruct (clients n !! name0).
  - unfold Server_Accept, Network.registerServer.
    by destruct (addressMap n !! _).
  - unfold Server_RegisterName. by destruct (Server.RegisterName _ _ _).
  - destruct (Dail_result n network address) as [-> | [server ->]]; [done|].
    simpl. rewrite lookup_insert_ne; [done|].
    intros <-. destruct H as [H1 _ _ _].
    by rewrite (dense_fresh _ _ H1) in Hc.
  - by rewrite closeClient_coherent_id.
Qed.

(** X13: in every fabric reached from NewNetwork by any run of
    operations, the clients are exactly client-0 .. client-(k-1), each
    stored under its own name with an enabled entry and a connection;
    the name the next Dail will generate is free; and no operation
    removes or replaces a client of the directory. *)
Theorem clients_directory_invariant (ops : list op) :
  let n := run NewNetwork ops in
  clients n !! generateName "client" (Z.of_nat (size (clients n))) = None
  ∧ (∀ name c,
       clients n !! name = Some c →
       Client_name c = name
       ∧ is_Some (connections n !! name)
       ∧ is_Some (enabled n !! name)
       ∧ ∃ k : nat, k < size (clients n) ∧ name = generateName "client" (Z.of_nat k))
  ∧ (∀ o name c,
       clients n !! name = Some c → clients (apply_op n o) !! name = Some c).
Proof.
  intros n.
  assert (H : clients_coherent n) by apply coherent_run, coherent_NewNetwork.
  split; [|split].
  - apply dense_fresh, H.
  - intros name c Hc. destruct H as [H1 H2 H3 H4].
    split; [by apply H2|]. split; [by apply H4; eauto|].
    split; [by apply H3; eauto|]. apply H1. eauto.
  - intros o name c. by apply coherent_client_kept.
Qed.

Lemma clients_directory_invariant_witness :
  clients net_sample !! "client-2" = None
  ∧ (Client_name client0 = "client-0"
     ∧ is_Some (connections net_sample !! "client-0")
     ∧ is_Some (enabled net_sample !! "client-0")
     ∧ ∃ k : nat, k < size (clients net_sample)
                  ∧ "client-0" = generateName "client" (Z.of_nat k))
  ∧ clients (apply_op net_sample (OpClose "client-0")) !! "client-0" = Some client0.
Proof.
  destruct (clients_directory_invariant sample_ops) as (Hfresh & Hin & Hkept).
  split; [exact Hfresh|]. split.
  - apply (Hin "client-0" client0). reflexivity.
  - apply (Hkept (OpClose "client-0") "client-0" client0). reflexivity.
Defined.

(** ** The servers directory along a run *)

Lemma named_same (n n' : Network) :
  servers n' = servers n → objects n' = objects n → allocated n' = allocated n →
  servers_named n → servers_named n'.
Proof. intros Hs Ho Ha H name server. rewrite Hs, Ho, Ha. apply H. Qed.

Lemma named_NewServer (n : Network) :
  servers_named n → servers_named (Network.NewServer n).1.
Proof.
  intros H name server. unfold Network.NewServer. simpl.
  rewrite lookup_insert. destruct (decide _) as [<-|Hne].
  - intros [= <-]. rewrite Nat.eqb_refl. split; [done | lia].
  - intros Hs. destruct (H _ _ Hs) as [Hname Hlt].
    destruct (Nat.eqb_spec server (allocated n)); [lia|]. split; [done | lia].
Qed.

Lemma named_RegisterName (n : Network) (l : nat) (name : string) (rcvr : Receiver) :
  servers_named n → servers_named (Server_RegisterName n l name rcvr).1.
Proof.
  intros H key server. unfold Server_RegisterName.
  pose proof (RegisterName_name (objects n l) name rcvr) as Hname.
  destruct (Server.RegisterName (objects n l) name rcvr) as [s err]. simpl in *.
  intros Hs. destruct (H _ _ Hs) as [Hkey Hlt].
  destruct (Nat.eqb_spec server l) as [->|]; split; try lia; congruence.
Qed.

Lemma named_apply_op (n : Network) (o : op) :
  servers_named n → servers_named (apply_op n o).
Proof.
  intros H. destruct o; simpl;
    try (by eapply named_same; [..|exact H]).
  - unfold Network.EnableClient, Network.setClientEnable.
    destruct (clients n !! name); [|done]. by eapply named_same; [..|exact H].
  - unfold Network.DisableClient, Network.setClientEnable.
    destruct (clients n !! name); [|done]. by eapply named_same; [..|exact H].
  - by apply named_NewServer.
  - intros name l. unfold Network.RemoveServer. simpl.
    rewrite lookup_delete_Some. intros [_ Hs]. by apply H.
  - unfold Server_Accept, Network.registerServer.
    destruct (addressMap n !! _); [done|]. by eapply named_same; [..|exact H].
  - by apply named_RegisterName.
  - destruct (Dail_result n network address) as [-> | [server ->]]; [done|].
    by eapply named_same; [..|exact H].
  - unfold Network.closeClient. destruct (clients n !! name); [done|].
    by eapply named_same; [..|exact H].
Qed.

Lemma named_run (ops : list op) (n : Network) :
  servers_named n → servers_named (run n ops).
Proof.
  revert n. induction ops as [|o ops IH]; intros n H; [done|].
  simpl. apply IH. by apply named_apply_op.
Qed.

Lemma named_NewNetwork : servers_named NewNetwork.
Proof. intros name server. simpl. by rewrite lookup_empty. Qed.

(** X14: in every fabric reached from NewNetwork, a directory entry
    points to a server carrying the entry's name; so removing a server
    through the pointer the directory holds takes its name out of the
    directory, and every call routed to that name then ends in the
    timeout error after one sleep, with nothing invoked.  The clients
    and their connections stay as they were. *)
Theorem RemoveServer_makes_calls_time_out
    (ops : list op) (server : nat) (serverName clientName service method : string)
    (args reply : value) (env : Env) :
  let n := run NewNetwork ops in
  let n1 := Network.RemoveServer n server in
  servers n !! serverName = Some server →
  Server_name (objects n server) = serverName
  ∧ servers n1 !! serverName = None
  ∧ Network.dispatch n1 serverName clientName service method args reply env
    = (Ret timeoutErr,
       log (ESleep (Z.rem (next_draw env)
                      (if longDelay n then longTimeout else shortTimeout)))
           (advance env))
  ∧ clients n1 = clients n
  ∧ connections n1 = connections n
  ∧ addressMap n1 = addressMap n.
Proof.
  intros n n1 Hs.
  assert (Hnamed : servers_named n) by apply named_run, named_NewNetwork.
  destruct (Hnamed _ _ Hs) as [Hname _].
  assert (Hgone : servers n1 !! serverName = None).
  { subst n1. unfold Network.RemoveServer. simpl. rewrite Hname.
    apply lookup_delete_eq. }
  split; [done|]. split; [done|]. split; [|done].
  change (longDelay n) with (longDelay n1). apply dispatch_no_reply. by right.
Qed.

Lemma RemoveServer_makes_calls_time_out_witness :
  Server_name (objects net_sample 0) = "server-0"
  ∧ servers (Network.RemoveServer net_sample 0) !! "server-0" = None
  ∧ Network.dispatch (Network.RemoveServer net_sample 0)
      "server-0" "client-0" "Arith" "Add" (VPtr 1) (VPtr 2) env0
    = (Ret timeoutErr, log (ESleep 37) (advance env0))
  ∧ clients (Network.RemoveServer net_sample 0) = clients net_sample
  ∧ connections (Network.RemoveServer net_sample 0) = connections net_sample
  ∧ addressMap (Network.RemoveServer net_sample 0) = addressMap net_sample.
Proof.
  apply (RemoveServer_makes_calls_time_out sample_ops 0
           "server-0" "client-0" "Arith" "Add" (VPtr 1) (VPtr 2) env0).
  reflexivity.
Defined.

Lemma dense_servers_apply_op (n : Network) (o : op) :
  match o with OpRemoveServer _ => False | _ => True end →
  dense "server" (servers n) → dense "server" (servers (apply_op n o)).
Proof.
  intros Ho H. destruct o; simpl; try done.
  - unfold Network.EnableClient, Network.setClientEnable.
    by destruct (clients n !! name).
  - unfold Network.DisableClient, Network.setClientEnable.
    by destruct (clients n !! name).
  - by apply dense_insert.
  - unfold Server_Accept, Network.registerServer. by destruct (addressMap n !! _).
  - unfold Server_RegisterName. by destruct (Server.RegisterName _ _ _).
  - by destruct (Dail_result n network address) as [-> | [server ->]].
  - unfold Network.closeClient. by destruct (clients n !! name).
Qed.

Lemma dense_servers_run (ops : list op) (n : Network) :
  Forall (λ o, match o with OpRemoveServer _ => False | _ => True end) ops →
  dense "server" (servers n) → dense "server" (servers (run n ops)).
Proof.
  revert n. induction ops as [|o ops IH]; intros n Hops H; [done|].
  apply Forall_cons in Hops as [Ho Hops].
  simpl. apply IH; [done|]. by apply dense_servers_apply_op.
Qed.

(** X15: as long as no server was removed, NewServer names are unique:
    in a fabric reached from NewNetwork by a run without RemoveServer,
    the servers are server-0 .. server-(k-1), the name NewServer
    generates is free, the new server is stored under it, and every
    server of the directory keeps its entry. *)
Theorem NewServer_fresh_without_removal (ops : list op) :
  Forall (λ o, match o with OpRemoveServer _ => False | _ => True end) ops →
  let n := run NewNetwork ops in
  let n' := (Network.NewServer n).1 in
  let server := (Network.NewServer n).2 in
  let name := generateName "server" (Z.of_nat (size (servers n))) in
  servers n !! name = None
  ∧ Server_name (objects n' server) = name
  ∧ servers n' !! name = Some server
  ∧ size (servers n') = S (size (servers n))
  ∧ (∀ other l, servers n !! other = Some l →
                servers n' !! other = Some l ∧ objects n' l = objects n l).
Proof.
  intros Hops n n' server name.
  assert (Hd : dense "server" (servers n)).
  { apply dense_servers_run; [done|]. apply dense_empty. }
  assert (Hnamed : servers_named n) by apply named_run, named_NewNetwork.
  pose proof (dense_fresh _ _ Hd) as Hfresh. fold name in Hfresh.
  subst n' server. unfold Network.NewServer. simpl. fold name.
  split; [done|]. split; [by rewrite Nat.eqb_refl|].
  split; [apply lookup_insert_eq|]. split; [by apply map_size_insert_None|].
  intros other l Hl. split.
  - rewrite lookup_insert_ne; [done|]. intros <-. congruence.
  - destruct (Hnamed _ _ Hl) as [_ Hlt].
    by destruct (Nat.eqb_spec l (allocated n)); [lia|].
Qed.

Lemma NewServer_fresh_without_removal_witness :
  servers net_sample !! "server-2" = None
  ∧ Server_name (objects (Network.NewServer net_sample).1 2) = "server-2"
  ∧ servers (Network.NewServer net_sample).1 !! "server-2" = Some 2
  ∧ size (servers (Network.NewServer net_sample).1) = 3
  ∧ (∀ other l, servers net_sample !! other = Some l →
                servers (Network.NewServer net_sample).1 !! other = Some l
                ∧ objects (Network.NewServer net_sample).1 l = objects net_sample l).
Proof.
  pose proof (NewServer_fresh_without_removal sample_ops
                ltac:(repeat constructor)) as H.
  cbv zeta in H. destruct H as (H1 & H2 & H3 & H4 & H5).
  split; [exact H1|]. split; [exact H2|]. split; [exact H3|].
  split; [exact H4 | exact H5].
Defined.

(** ** The service-method string *)

(** X16: parseServiceMethod answers the pair (service, method) exactly
    for the string service.method with no dot in either part; parsing
    inverts the joining of the two names with a dot. *)
Theorem parseServiceMethod_Ok_iff (s service method : string) :
  parseServiceMethod s = Ok (service, method)
  ↔ s = service +:+ "." +:+ method
    ∧ count_sep "." service = 0 ∧ count_sep "." method = 0.
Proof.
  split.
  - intros H.
    assert (Hsplit : strings_Split s "." = [service; method]).
    { unfold parseServiceMethod in H.
      destruct (strings_Split s ".") as [|t0 [|t1 [|t2 ts]]]; try done.
      by injection H as -> ->. }
    assert (Hone : count_sep "." s = 1).
    { pose proof (strings_Split_length "." s) as Hlen.
      rewrite Hsplit in Hlen. simpl in Hlen. lia. }
    destruct (one_sep_decompose "." s Hone) as (a & b & -> & Ha & Hb).
    rewrite strings_Split_app, strings_Split_no_sep in Hsplit by done.
    by injection Hsplit as -> ->.
  - intros (-> & Hs & Hm). by apply parseServiceMethod_pair.
Qed.

(** * The two versions of the fabric *)

(** X17: the fault-injecting fabric refines the plain one.  On a
    reliable fabric without reordering, a call of an enabled client
    whose server is live gives the result and the environment that the
    plain fabric gives on the same directories, for every string; they
    part where the server is missing, which the plain fabric reports at
    once as "server missed" and the fault-injecting one as a timeout
    after a sleep. *)
Theorem call_refines_basic
    (n : Network) (clientName serviceMethod : string) (args reply : value) (env : Env) :
  (reliable n = true →
   longReorder n = false →
   default false (enabled n !! clientName) = true →
   (∀ serverName, connections n !! clientName = Some serverName →
                  is_Some (servers n !! serverName)) →
   Network.call n clientName serviceMethod args reply env
   = BasicNetwork.call (forget n) clientName serviceMethod args reply env)
  ∧ (∀ serverName service method,
       servers n !! serverName = None →
       BasicNetwork.dispatch (forget n) serverName clientName service method args reply env
       = (Ret (Some "rpc: server missed"), env)
       ∧ (Network.dispatch n serverName clientName service method args reply env).1
         = Ret timeoutErr).
Proof.
  split.
  - intros Hrel Hre Hen Hlive. unfold Network.call, BasicNetwork.call.
    destruct (parseServiceMethod serviceMethod) as [[service method]|msg]; [|done].
    simpl. destruct (connections n !! clientName) as [serverName|] eqn:Hc; [|done].
    destruct (Hlive serverName eq_refl) as [server Hs].
    rewrite (dispatch_reliable n serverName clientName service method server) by done.
    unfold BasicNetwork.dispatch, BasicNetwork.getServer. simpl. by rewrite Hs.
  - intros serverName service method Hs. split.
    + unfold BasicNetwork.dispatch, BasicNetwork.getServer. simpl. by rewrite Hs.
    + rewrite dispatch_no_reply by by right. done.
Qed.

Lemma call_refines_basic_witness :
  Network.call net_dialled "client-0" "Arith.Add" (VPtr 1) (VPtr 2) env0
  = BasicNetwork.call (forget net_dialled) "client-0" "Arith.Add" (VPtr 1) (VPtr 2) env0
  ∧ BasicNetwork.dispatch (forget net_dialled) "server-9" "client-0" "Arith" "Add"
      (VPtr 1) (VPtr 2) env0
    = (Ret (Some "rpc: server missed"), env0)
  ∧ (Network.dispatch net_dialled "server-9" "client-0" "Arith" "Add"
       (VPtr 1) (VPtr 2) env0).1
    = Ret timeoutErr.
Proof.
  split.
  - apply (proj1 (call_refines_basic net_dialled "client-0" "Arith.Add"
                    (VPtr 1) (VPtr 2) env0)); try reflexivity.
    intros serverName [= <-]. vm_compute. eauto.
  - apply (proj2 (call_refines_basic net_dialled "client-0" "Arith.Add"
                    (VPtr 1) (VPtr 2) env0) "server-9" "Arith" "Add").
    reflexivity.
Defined.
